(** * vtkCUDADeviceManager: the device / stream broker

    A shallow embedding of [Lib/vtkCudaDeviceManager.cxx].  The manager keeps
    three containers,

    - [ObjectToDeviceMap : std::multimap<vtkCUDAObject*,int>],
    - [StreamToDeviceMap : std::map<cudaStream_t*,int>],
    - [StreamToObjectMap : std::multimap<cudaStream_t*,vtkCUDAObject*>],

    and drives the CUDA runtime (active device, streams, device reset).

    Modelling choices.
    - Pointers ([vtkCUDAObject*], [cudaStream_t*]) are addresses in [Z]; the
      null pointer is [0].
    - A [std::map] is a [gmap Z Z]; its traversal ([begin() .. end()]) visits
      the entries by increasing key.  A [std::multimap] is the list of its
      entries in traversal order (keys non-decreasing, equal keys in insertion
      order); an iterator into it is a position in that list.
    - The CUDA runtime is a record: the device count and the status that
      [cudaGetDeviceCount] reports, the active device, the sticky error that
      [cudaGetLastError] reads and clears, and the chronological list of the
      state-changing runtime calls issued so far.  [cudaSetDevice d] makes [d]
      the active device; [cudaDeviceReset] is logged with the device it acts
      on (the active one).
      Runtime calls take effect as documented for a successful call; an
      error of the device is what [last_error] holds.
    - [operator new] hands out the address [heap] and moves it on.
    - [vtkErrorMacro] appends its message to an error stream.
    - [regularLock] is a pointer to a [vtkMutexLock]: null, or the address
      of a mutex that is free or held, or the address of a mutex that has
      been deleted.  A method is a function from the state at the call to
      its outcome: it returns, or it uses a null or deleted lock (which
      has no defined behaviour), or it waits for a mutex that its own
      thread holds.  Calls come one after the other, so between two calls
      nobody holds the lock. *)

From Stdlib Require Import ZArith Lia String.
From stdpp Require Import gmap sorting.

Open Scope Z_scope.

(** ** Containers *)

Module StdMap.

(** [std::map::count]: keys are unique, the answer is 0 or 1. *)
Definition count (k : Z) (m : gmap Z Z) : Z :=
  match m !! k with Some _ => 1 | None => 0 end.

(** [std::map::operator[]]: a missing key is first inserted with the
    value-initialised [int], that is 0. *)
Definition index (k : Z) (m : gmap Z Z) : gmap Z Z * Z :=
  match m !! k with
  | Some v => (m, v)
  | None => (<[k:=0]> m, 0)
  end.

(** [std::map::insert(pair)]: an existing key keeps its value. *)
Definition insert_pair (k v : Z) (m : gmap Z Z) : gmap Z Z :=
  match m !! k with
  | Some _ => m
  | None => <[k:=v]> m
  end.

(** [std::map::erase(key)]. *)
Definition erase (k : Z) (m : gmap Z Z) : gmap Z Z := delete k m.

Definition key_le (x y : Z * Z) : Prop := x.1 ≤ y.1.

#[global] Instance key_le_dec x y : Decision (key_le x y) :=
  Z_le_dec x.1 y.1.

(** Traversal from [begin()] to [end()]: entries by increasing key. *)
Definition entries (m : gmap Z Z) : list (Z * Z) :=
  merge_sort key_le (map_to_list m).

End StdMap.

Module StdSet.

(** Traversal of a [std::set<int>]: elements in increasing order. *)
Definition entries (s : gset Z) : list Z := merge_sort Z.le (elements s).

End StdSet.

Module MultiMap.

(** [std::multimap::insert(pair)]: the new entry goes after every entry
    whose key is not greater (upper bound of the equal range). *)
Fixpoint insert_pair (k v : Z) (m : list (Z * Z)) : list (Z * Z) :=
  match m with
  | [] => [(k, v)]
  | e :: r => if k <? e.1 then (k, v) :: e :: r else e :: insert_pair k v r
  end.

(** [std::multimap::count(key)]. *)
Definition count (k : Z) (m : list (Z * Z)) : Z :=
  Z.of_nat (length (filter (λ e, e.1 = k) m)).

(** [std::multimap::find(key)]: the first entry with that key. *)
Definition find (k : Z) (m : list (Z * Z)) : option (Z * Z) :=
  head (filter (λ e, e.1 = k) m).

(** [std::multimap::erase(iterator)]. *)
Definition erase_at (it : nat) (m : list (Z * Z)) : list (Z * Z) :=
  delete it m.

End MultiMap.

(** ** The CUDA runtime *)

Inductive cuda_call : Type :=
  | SetDevice (device : Z)
  | StreamCreate (stream : Z)
  | StreamSynchronize (stream : Z)
  | StreamDestroy (stream : Z)
  | DeviceReset (device : Z).

#[global] Instance cuda_call_eq_dec : EqDecision cuda_call.
Proof. solve_decision. Defined.

Record Runtime : Type := mkRuntime {
  count_status : Z;          (* what cudaGetDeviceCount returns, 0 = cudaSuccess *)
  device_count : Z;          (* what cudaGetDeviceCount writes *)
  active : Z;                (* the active device *)
  last_error : Z;            (* pending error, 0 = cudaSuccess *)
  calls : list cuda_call     (* runtime calls issued, oldest first *)
}.

Definition issue (c : cuda_call) (rt : Runtime) : Runtime :=
  mkRuntime (count_status rt) (device_count rt) (active rt) (last_error rt)
            (calls rt ++ [c]).

Definition cudaSetDevice (device : Z) (rt : Runtime) : Runtime :=
  mkRuntime (count_status rt) (device_count rt) device (last_error rt)
            (calls rt ++ [SetDevice device]).

Definition cudaGetDevice (rt : Runtime) : Z := active rt.

Definition cudaDeviceReset (rt : Runtime) : Runtime :=
  issue (DeviceReset (active rt)) rt.

Definition cudaStreamCreate (stream : Z) (rt : Runtime) : Runtime :=
  issue (StreamCreate stream) rt.

Definition cudaStreamSynchronize (stream : Z) (rt : Runtime) : Runtime :=
  issue (StreamSynchronize stream) rt.

Definition cudaStreamDestroy (stream : Z) (rt : Runtime) : Runtime :=
  issue (StreamDestroy stream) rt.

(** [cudaGetLastError]: returns the pending error and resets it. *)
Definition cudaGetLastError (rt : Runtime) : Z * Runtime :=
  (last_error rt,
   mkRuntime (count_status rt) (device_count rt) (active rt) 0 (calls rt)).

(** ** The manager *)

Record Manager : Type := mkManager {
  ObjectToDeviceMap : list (Z * Z);
  StreamToDeviceMap : gmap Z Z;
  StreamToObjectMap : list (Z * Z)
}.

Record World : Type := mkWorld {
  mgr : Manager;             (* the singleton's three containers *)
  cuda : Runtime;            (* the CUDA runtime *)
  heap : Z;                  (* address the next operator new returns *)
  errors : list string       (* messages of vtkErrorMacro, oldest first *)
}.

Definition msg_count : string :=
  "Catostrophic CUDA error - cannot count number of devices.".
Definition msg_invalid_device : string := "Invalid device identifier.".
Definition msg_pair_not_found : string :=
  "Could not locate supplied caller-device pair.".
Definition msg_stream_device_mismatch : string :=
  "Stream already assigned to particular device.".
Definition msg_unused_stream : string := "Cannot synchronize unused stream.".
Definition msg_no_unique_mapping : string := "No unique mapping exists.".
Definition msg_no_mapping : string := "No mapping exists.".

Definition vtkErrorMacro (msg : string) (w : World) : World :=
  mkWorld (mgr w) (cuda w) (heap w) (errors w ++ [msg]).

Definition with_mgr (m : Manager) (w : World) : World :=
  mkWorld m (cuda w) (heap w) (errors w).

Definition with_cuda (rt : Runtime) (w : World) : World :=
  mkWorld (mgr w) rt (heap w) (errors w).

Definition with_ObjectToDeviceMap (od : list (Z * Z)) (w : World) : World :=
  with_mgr (mkManager od (StreamToDeviceMap (mgr w)) (StreamToObjectMap (mgr w))) w.

Definition with_StreamToDeviceMap (sd : gmap Z Z) (w : World) : World :=
  with_mgr (mkManager (ObjectToDeviceMap (mgr w)) sd (StreamToObjectMap (mgr w))) w.

Definition with_StreamToObjectMap (so : list (Z * Z)) (w : World) : World :=
  with_mgr (mkManager (ObjectToDeviceMap (mgr w)) (StreamToDeviceMap (mgr w)) so) w.

(** [operator new] for a [cudaStream_t]: a fresh address. *)
Definition new_stream (w : World) : Z * World :=
  (heap w, mkWorld (mgr w) (cuda w) (heap w + 1) (errors w)).

Definition GetNumberOfDevices (w : World) : Z * World :=
  if negb (count_status (cuda w) =? 0)
  then (-1, vtkErrorMacro msg_count w)
  else (device_count (cuda w), w).

(** The test [device < 0 || device >= this->GetNumberOfDevices()]: the
    devices are only counted when the index is not negative. *)
Definition invalid_device (device : Z) (w : World) : bool * World :=
  if device <? 0 then (true, w)
  else let (n, w) := GetNumberOfDevices w in (device >=? n, w).

(** The search loop of [ReturnStream]: [it] walks [StreamToObjectMap]; the
    third conjunct of the test is only evaluated, and [operator[]] only
    applied, on an entry that matches stream and caller; the loop stops at
    the first full match. *)
Fixpoint find_triple (caller stream device : Z) (l : list (Z * Z)) (it : nat)
    (sd : gmap Z Z) : option nat * gmap Z Z :=
  match l with
  | [] => (None, sd)
  | e :: r =>
      if (e.1 =? stream) && (e.2 =? caller)
      then
        let (sd', d) := StdMap.index e.1 sd in
        if d =? device then (Some it, sd')
        else find_triple caller stream device r (S it) sd'
      else find_triple caller stream device r (S it) sd
  end.

(** The search loop of [ReturnDevice]: no [break], so [eraseIt] ends on the
    last entry equal to (caller, device); [emptyDevice] is cleared by an
    entry for the device that is not such a match. *)
Fixpoint scan_devices (caller device : Z) (l : list (Z * Z)) (it : nat)
    (acc : bool * nat * bool) : bool * nat * bool :=
  match l with
  | [] => acc
  | e :: r =>
      let '(found, eraseIt, emptyDevice) := acc in
      if (e.1 =? caller) && (e.2 =? device)
      then scan_devices caller device r (S it) (true, it, emptyDevice)
      else if e.2 =? device
      then scan_devices caller device r (S it) (found, eraseIt, false)
      else scan_devices caller device r (S it) (found, eraseIt, emptyDevice)
  end.

(** The loop of [ReturnDevice] over [StreamToObjectMap]: every entry is
    looked up with [operator[]]; the body of the [if] is a comment, so
    [streamsToReturn] is returned as it came. *)
Fixpoint collect_streams (device : Z) (l : list (Z * Z)) (sd : gmap Z Z)
    (streamsToReturn : gset Z) : gmap Z Z * gset Z :=
  match l with
  | [] => (sd, streamsToReturn)
  | e :: r =>
      let (sd', d) := StdMap.index e.1 sd in
      if d =? device
      then collect_streams device r sd' streamsToReturn
      else collect_streams device r sd' streamsToReturn
  end.

(** The second loop of the destructor, over [devicesInUse]. *)
Fixpoint decommission (l : list Z) (rt : Runtime) : Runtime :=
  match l with
  | [] => rt
  | d :: r => decommission r (cudaDeviceReset (cudaSetDevice d rt))
  end.

(** ** The lock

    [regularLock] is a pointer to a [vtkMutexLock].  The constructor sets it
    to null.  [GetDevice] allocates a lock when [ObjectToDeviceMap] is empty;
    [ReturnDevice] drops the only reference to it, which deletes the lock,
    when it leaves [ObjectToDeviceMap] empty; the destructor deletes it.
    Every other use is a call [regularLock->Lock()] or
    [regularLock->Unlock()] with no test of the pointer.

    A [vtkMutexLock] is a plain mutex (on POSIX threads, a mutex with the
    default attributes): [Lock()] on a mutex that the calling thread already
    holds does not return.  A call through the null pointer or through a
    pointer to a deleted lock has no defined behaviour; the method stops
    there and its outcome is [Undefined]. *)

Inductive LockState : Type :=
  | NoLock      (* the null pointer *)
  | Free        (* a mutex that nobody holds *)
  | Held        (* a mutex that the calling thread holds *)
  | Deleted.    (* the address of a mutex that has been deleted *)

Record Process : Type := mkProcess {
  world : World;             (* containers, runtime, heap, error stream *)
  regularLock : LockState
}.

Inductive Outcome (A : Type) : Type :=
  | Returns (a : A) (p : Process)   (* the method returns [a] *)
  | Undefined                       (* a null or deleted lock was used *)
  | Hangs.                          (* waits for a mutex it holds itself *)

Arguments Returns {A} a p.
Arguments Undefined {A}.
Arguments Hangs {A}.

(** A method: from the state at the call to its outcome. *)
Definition Method (A : Type) : Type := Process → Outcome A.

#[global] Instance Method_ret : MRet Method := λ A a p, Returns a p.

#[global] Instance Method_bind : MBind Method := λ A B k m p,
  match m p with
  | Returns a p' => k a p'
  | Undefined => Undefined
  | Hangs => Hangs
  end.

Definition get : Method World := λ p, Returns (world p) p.

Definition modify (f : World → World) : Method unit :=
  λ p, Returns tt (mkProcess (f (world p)) (regularLock p)).

Definition lift {A : Type} (f : World → A * World) : Method A :=
  λ p, let (a, w) := f (world p) in Returns a (mkProcess w (regularLock p)).

(** A call of the CUDA runtime that returns nothing of interest. *)
Definition runtime (f : Runtime → Runtime) : Method unit :=
  modify (λ w, with_cuda (f (cuda w)) w).

Module vtkMutexLock.

(** [regularLock = vtkMutexLock::New()]. *)
Definition New : Method unit :=
  λ p, Returns tt (mkProcess (world p) Free).

(** [regularLock->Lock()]. *)
Definition Lock : Method unit := λ p,
  match regularLock p with
  | Free => Returns tt (mkProcess (world p) Held)
  | Held => Hangs
  | NoLock | Deleted => Undefined
  end.

(** [regularLock->Unlock()]. *)
Definition Unlock : Method unit := λ p,
  match regularLock p with
  | Free | Held => Returns tt (mkProcess (world p) Free)
  | NoLock | Deleted => Undefined
  end.

(** [regularLock->UnRegister(this)]: the manager's reference is the only
    one, so the lock is deleted; the pointer keeps its value. *)
Definition UnRegister : Method unit := λ p,
  match regularLock p with
  | Free | Held => Returns tt (mkProcess (world p) Deleted)
  | NoLock | Deleted => Undefined
  end.

(** [regularLock->Delete()]. *)
Definition Delete : Method unit := UnRegister.

End vtkMutexLock.

(** ** The methods *)

(** The constructor: the three containers start empty and [regularLock] is
    null. *)
Definition vtkCUDADeviceManager (rt : Runtime) (brk : Z) : Process :=
  mkProcess (mkWorld (mkManager [] ∅ []) rt brk []) NoLock.

Definition GetDevice (caller device : Z) : Method bool :=
  invalid ← lift (invalid_device device);
  if invalid : bool
  then modify (vtkErrorMacro msg_invalid_device);; mret true
  else
    w ← get;
    match ObjectToDeviceMap (mgr w) with
    | [] => vtkMutexLock.New
    | _ => mret tt
    end;;
    vtkMutexLock.Lock;;
    modify (λ w, with_ObjectToDeviceMap
                   (MultiMap.insert_pair caller device (ObjectToDeviceMap (mgr w))) w);;
    vtkMutexLock.Unlock;;
    mret false.

Definition ReturnStream (caller stream device : Z) : Method bool :=
  vtkMutexLock.Lock;;
  w ← get;
  let (found, sd) :=
    find_triple caller stream device (StreamToObjectMap (mgr w)) 0
                (StreamToDeviceMap (mgr w)) in
  modify (with_StreamToDeviceMap sd);;
  match found with
  | None =>
      modify (vtkErrorMacro msg_pair_not_found);;
      vtkMutexLock.Unlock;;
      mret true
  | Some it =>
      modify (λ w, with_StreamToObjectMap
                     (MultiMap.erase_at it (StreamToObjectMap (mgr w))) w);;
      w ← get;
      (if MultiMap.count stream (StreamToObjectMap (mgr w)) =? 0
       then modify (λ w, with_StreamToDeviceMap
                           (StdMap.erase stream (StreamToDeviceMap (mgr w))) w)
       else mret tt);;
      vtkMutexLock.Unlock;;
      mret false
  end.

(** The loop of [ReturnDevice] over [streamsToReturn]. *)
Fixpoint return_streams (caller device : Z) (l : list Z) : Method unit :=
  match l with
  | [] => mret tt
  | s :: r => ReturnStream caller s device;; return_streams caller device r
  end.

Definition ReturnDevice (caller device : Z) : Method bool :=
  vtkMutexLock.Lock;;
  w ← get;
  let '(found, eraseIt, emptyDevice) :=
    scan_devices caller device (ObjectToDeviceMap (mgr w)) 0 (false, 0%nat, true) in
  if negb found
  then
    modify (vtkErrorMacro msg_pair_not_found);;
    vtkMutexLock.Unlock;;
    mret true
  else
    let (sd, streamsToReturn) :=
      collect_streams device (StreamToObjectMap (mgr w))
                      (StreamToDeviceMap (mgr w)) ∅ in
    modify (with_StreamToDeviceMap sd);;
    return_streams caller device (StdSet.entries streamsToReturn);;
    modify (λ w, with_ObjectToDeviceMap
                   (MultiMap.erase_at eraseIt (ObjectToDeviceMap (mgr w))) w);;
    (if emptyDevice
     then
       w ← get;
       let oldDevice := cudaGetDevice (cuda w) in
       (if negb (device =? oldDevice) then runtime (cudaSetDevice device)
        else mret tt);;
       runtime cudaDeviceReset;;
       (if negb (device =? oldDevice) then runtime (cudaSetDevice oldDevice)
        else mret tt)
     else mret tt);;
    vtkMutexLock.Unlock;;
    w ← get;
    match ObjectToDeviceMap (mgr w) with
    | [] => vtkMutexLock.UnRegister
    | _ => mret tt
    end;;
    mret false.

(** [GetStream] takes the handle through [cudaStream_t** stream]; the
    second component of the result is [*stream] on return.  In the
    consistency test [operator[]] is only reached when [count] is 1, where
    it is a plain lookup that leaves the map as it is. *)
Definition GetStream (caller stream device : Z) : Method (bool * Z) :=
  invalid ← lift (invalid_device device);
  if invalid : bool
  then modify (vtkErrorMacro msg_invalid_device);; mret (true, stream)
  else
    vtkMutexLock.Lock;;
    w ← get;
    let sd := StreamToDeviceMap (mgr w) in
    if negb (stream =? 0) && (StdMap.count stream sd =? 1)
       && negb ((StdMap.index stream sd).2 =? device)
    then
      vtkMutexLock.Unlock;;
      modify (vtkErrorMacro msg_stream_device_mismatch);;
      mret (true, stream)
    else
      let found :=
        existsb (λ e, (e.1 =? stream) && (e.2 =? caller))
                (StreamToObjectMap (mgr w)) in
      if found
      then vtkMutexLock.Unlock;; mret (false, stream)
      else
        runtime (cudaSetDevice device);;
        stream ← (if stream =? 0
                  then
                    temp ← lift new_stream;
                    runtime (cudaStreamCreate temp);;
                    mret temp
                  else mret stream);
        modify (λ w, with_StreamToDeviceMap
                       (StdMap.insert_pair stream device (StreamToDeviceMap (mgr w))) w);;
        modify (λ w, with_StreamToObjectMap
                       (MultiMap.insert_pair stream caller (StreamToObjectMap (mgr w))) w);;
        vtkMutexLock.Unlock;;
        mret (false, stream).

(** [cudaGetLastError() != cudaSuccess]. *)
Definition device_error : Method bool :=
  lift (λ w, let (e, rt) := cudaGetLastError (cuda w) in
             (negb (e =? 0), with_cuda rt w)).

Definition SynchronizeStream (stream : Z) : Method bool :=
  vtkMutexLock.Lock;;
  w ← get;
  if negb (StdMap.count stream (StreamToDeviceMap (mgr w)) =? 1)
  then
    modify (vtkErrorMacro msg_unused_stream);;
    vtkMutexLock.Unlock;;
    mret true
  else
    let (sd, device) := StdMap.index stream (StreamToDeviceMap (mgr w)) in
    modify (with_StreamToDeviceMap sd);;
    vtkMutexLock.Unlock;;
    w ← get;
    let oldDevice := cudaGetDevice (cuda w) in
    runtime (cudaSetDevice device);;
    runtime (cudaStreamSynchronize stream);;
    runtime (cudaSetDevice oldDevice);;
    device_error.

Definition ReserveGPU (stream : Z) : Method bool :=
  vtkMutexLock.Lock;;
  w ← get;
  if negb (StdMap.count stream (StreamToDeviceMap (mgr w)) =? 1)
  then
    modify (vtkErrorMacro msg_unused_stream);;
    vtkMutexLock.Unlock;;
    mret true
  else
    let (sd, device) := StdMap.index stream (StreamToDeviceMap (mgr w)) in
    modify (with_StreamToDeviceMap sd);;
    vtkMutexLock.Unlock;;
    runtime (cudaSetDevice device);;
    device_error.

Definition QueryDeviceForObject (object : Z) : Method Z :=
  vtkMutexLock.Lock;;
  w ← get;
  device ←
    (if MultiMap.count object (ObjectToDeviceMap (mgr w)) =? 1
     then
       mret (match MultiMap.find object (ObjectToDeviceMap (mgr w)) with
             | Some e => e.2
             | None => -1
             end)
     else modify (vtkErrorMacro msg_no_unique_mapping);; mret (-1));
  vtkMutexLock.Unlock;;
  mret device.

Definition QueryDeviceForStream (stream : Z) : Method Z :=
  vtkMutexLock.Lock;;
  w ← get;
  device ←
    (if StdMap.count stream (StreamToDeviceMap (mgr w)) =? 1
     then
       let (sd, device) := StdMap.index stream (StreamToDeviceMap (mgr w)) in
       modify (with_StreamToDeviceMap sd);;
       mret device
     else modify (vtkErrorMacro msg_no_mapping);; mret (-1));
  vtkMutexLock.Unlock;;
  mret device.

(** [DestroyEmptyStream] takes the lock only inside [SynchronizeStream];
    its own search of [StreamToDeviceMap] compares keys, so it is a
    lookup. *)
Definition DestroyEmptyStream (stream : Z) : Method unit :=
  SynchronizeStream stream;;
  w ← get;
  match StreamToDeviceMap (mgr w) !! stream with
  | None => modify (vtkErrorMacro msg_pair_not_found)
  | Some _ =>
      modify (λ w, with_StreamToDeviceMap
                     (StdMap.erase stream (StreamToDeviceMap (mgr w))) w)
  end.

(** The first loop of the destructor, over the entries of
    [StreamToDeviceMap]; the destructor holds the lock meanwhile. *)
Fixpoint end_streams (l : list (Z * Z)) (devicesInUse : gset Z)
    : Method (gset Z) :=
  match l with
  | [] => mret devicesInUse
  | e :: r =>
      SynchronizeStream e.1;;
      runtime (cudaStreamDestroy e.1);;
      end_streams r ({[e.2]} ∪ devicesInUse)
  end.

Definition destructor : Method unit :=
  vtkMutexLock.Lock;;
  w ← get;
  devicesInUse ← end_streams (StdMap.entries (StreamToDeviceMap (mgr w))) ∅;
  runtime (decommission (StdSet.entries devicesInUse));;
  modify (with_mgr (mkManager [] ∅ []));;
  vtkMutexLock.Unlock;;
  vtkMutexLock.Delete.

(** ** The methods with the lock left out

    What each method does to the containers, the runtime, the heap and the
    error stream when every [Lock()] it reaches succeeds: the method with
    its uses of [regularLock] erased, as a total function on worlds.  These
    functions are not the methods; they are what the proofs compute with,
    once a method's outcome has been reduced to them (section "The methods
    and the lock" below). *)

Definition GetDevice_nolock (caller device : Z) (w : World) : bool * World :=
  let (invalid, w) := invalid_device device w in
  if invalid
  then (true, vtkErrorMacro msg_invalid_device w)
  else
    (false,
     with_ObjectToDeviceMap
       (MultiMap.insert_pair caller device (ObjectToDeviceMap (mgr w))) w).

Definition ReturnStream_nolock (caller stream device : Z) (w : World) : bool * World :=
  let (found, sd) :=
    find_triple caller stream device (StreamToObjectMap (mgr w)) 0
                (StreamToDeviceMap (mgr w)) in
  let w := with_StreamToDeviceMap sd w in
  match found with
  | None => (true, vtkErrorMacro msg_pair_not_found w)
  | Some it =>
      let so := MultiMap.erase_at it (StreamToObjectMap (mgr w)) in
      let w := with_StreamToObjectMap so w in
      if MultiMap.count stream so =? 0
      then (false, with_StreamToDeviceMap (StdMap.erase stream sd) w)
      else (false, w)
  end.

Definition ReturnDevice_nolock (caller device : Z) (w : World) : bool * World :=
  let '(found, eraseIt, emptyDevice) :=
    scan_devices caller device (ObjectToDeviceMap (mgr w)) 0 (false, 0%nat, true) in
  if negb found
  then (true, vtkErrorMacro msg_pair_not_found w)
  else
    let (sd, streamsToReturn) :=
      collect_streams device (StreamToObjectMap (mgr w))
                      (StreamToDeviceMap (mgr w)) ∅ in
    let w := with_StreamToDeviceMap sd w in
    let w :=
      foldl (λ w s, (ReturnStream_nolock caller s device w).2) w
            (StdSet.entries streamsToReturn) in
    let w :=
      with_ObjectToDeviceMap
        (MultiMap.erase_at eraseIt (ObjectToDeviceMap (mgr w))) w in
    if emptyDevice
    then
      let oldDevice := cudaGetDevice (cuda w) in
      let rt := cuda w in
      let rt := if negb (device =? oldDevice) then cudaSetDevice device rt else rt in
      let rt := cudaDeviceReset rt in
      let rt := if negb (device =? oldDevice) then cudaSetDevice oldDevice rt else rt in
      (false, with_cuda rt w)
    else (false, w).

Definition GetStream_nolock (caller stream device : Z) (w : World) : bool * Z * World :=
  let (invalid, w) := invalid_device device w in
  if invalid
  then (true, stream, vtkErrorMacro msg_invalid_device w)
  else
    let sd := StreamToDeviceMap (mgr w) in
    if negb (stream =? 0) && (StdMap.count stream sd =? 1)
       && negb ((StdMap.index stream sd).2 =? device)
    then (true, stream, vtkErrorMacro msg_stream_device_mismatch w)
    else
      let found :=
        existsb (λ e, (e.1 =? stream) && (e.2 =? caller))
                (StreamToObjectMap (mgr w)) in
      if found then (false, stream, w)
      else
        let w := with_cuda (cudaSetDevice device (cuda w)) w in
        let (stream, w) :=
          if stream =? 0
          then
            let (temp, w) := new_stream w in
            (temp, with_cuda (cudaStreamCreate temp (cuda w)) w)
          else (stream, w) in
        let w :=
          with_StreamToDeviceMap
            (StdMap.insert_pair stream device (StreamToDeviceMap (mgr w))) w in
        let w :=
          with_StreamToObjectMap
            (MultiMap.insert_pair stream caller (StreamToObjectMap (mgr w))) w in
        (false, stream, w).

Definition SynchronizeStream_nolock (stream : Z) (w : World) : bool * World :=
  if negb (StdMap.count stream (StreamToDeviceMap (mgr w)) =? 1)
  then (true, vtkErrorMacro msg_unused_stream w)
  else
    let (sd, device) := StdMap.index stream (StreamToDeviceMap (mgr w)) in
    let w := with_StreamToDeviceMap sd w in
    let oldDevice := cudaGetDevice (cuda w) in
    let rt := cudaSetDevice device (cuda w) in
    let rt := cudaStreamSynchronize stream rt in
    let rt := cudaSetDevice oldDevice rt in
    let (e, rt) := cudaGetLastError rt in
    (negb (e =? 0), with_cuda rt w).

Definition ReserveGPU_nolock (stream : Z) (w : World) : bool * World :=
  if negb (StdMap.count stream (StreamToDeviceMap (mgr w)) =? 1)
  then (true, vtkErrorMacro msg_unused_stream w)
  else
    let (sd, device) := StdMap.index stream (StreamToDeviceMap (mgr w)) in
    let w := with_StreamToDeviceMap sd w in
    let rt := cudaSetDevice device (cuda w) in
    let (e, rt) := cudaGetLastError rt in
    (negb (e =? 0), with_cuda rt w).

Definition QueryDeviceForObject_nolock (object : Z) (w : World) : Z * World :=
  if MultiMap.count object (ObjectToDeviceMap (mgr w)) =? 1
  then
    (match MultiMap.find object (ObjectToDeviceMap (mgr w)) with
     | Some e => e.2
     | None => -1
     end, w)
  else (-1, vtkErrorMacro msg_no_unique_mapping w).

Definition QueryDeviceForStream_nolock (stream : Z) (w : World) : Z * World :=
  if StdMap.count stream (StreamToDeviceMap (mgr w)) =? 1
  then
    let (sd, device) := StdMap.index stream (StreamToDeviceMap (mgr w)) in
    (device, with_StreamToDeviceMap sd w)
  else (-1, vtkErrorMacro msg_no_mapping w).

Definition DestroyEmptyStream_nolock (stream : Z) (w : World) : World :=
  let w := (SynchronizeStream_nolock stream w).2 in
  match StreamToDeviceMap (mgr w) !! stream with
  | None => vtkErrorMacro msg_pair_not_found w
  | Some _ => with_StreamToDeviceMap (StdMap.erase stream (StreamToDeviceMap (mgr w))) w
  end.

(** The outcome of a method that first calls [regularLock->Lock()], given
    what it does next when the lock is taken. *)
Definition locking {A : Type} (l : LockState) (o : Outcome A) : Outcome A :=
  match l with
  | Free => o
  | Held => Hangs
  | NoLock | Deleted => Undefined
  end.

(** ** Observations on a world *)

(** Number of resets of [device] the runtime has performed so far. *)
Definition nresets (device : Z) (rt : Runtime) : nat :=
  length (filter (λ c, c = DeviceReset device) (calls rt)).

Definition resets (device : Z) (w : World) : nat := nresets device (cuda w).

(** The runtime calls of the reset block of [ReturnDevice]. *)
Definition reset_block (device : Z) (rt : Runtime) : Runtime :=
  let oldDevice := cudaGetDevice rt in
  let rt := if negb (device =? oldDevice) then cudaSetDevice device rt else rt in
  let rt := cudaDeviceReset rt in
  if negb (device =? oldDevice) then cudaSetDevice oldDevice rt else rt.

(** Invariant 1 of the data model: a stream that has an owner is bound to a
    device. *)
Definition owned_streams_bound (w : World) : Prop :=
  ∀ s o, (s, o) ∈ StreamToObjectMap (mgr w) →
         is_Some (StreamToDeviceMap (mgr w) !! s).

(** Some object other than [caller] holds [device]. *)
Definition other_holder (caller device : Z) (od : list (Z * Z)) : bool :=
  existsb (λ e, negb (e.1 =? caller) && (e.2 =? device)) od.

(** The entry (k, v), as the loops test it. *)
Definition is_pair (k v : Z) (e : Z * Z) : bool := (e.1 =? k) && (e.2 =? v).

(** The runtime after the synchronisation block of [SynchronizeStream] for a
    stream bound to [device]. *)
Definition synchronized (stream device : Z) (rt : Runtime) : Runtime :=
  let oldDevice := cudaGetDevice rt in
  let rt := cudaSetDevice device rt in
  let rt := cudaStreamSynchronize stream rt in
  let rt := cudaSetDevice oldDevice rt in
  (cudaGetLastError rt).2.

(** The runtime after the reservation block of [ReserveGPU]. *)
Definition reserved (device : Z) (rt : Runtime) : Runtime :=
  (cudaGetLastError (cudaSetDevice device rt)).2.

(** A runtime call that neither destroys a stream nor resets a device. *)
Definition harmless (c : cuda_call) : Prop :=
  match c with
  | StreamDestroy _ | DeviceReset _ => False
  | _ => True
  end.

Definition rt0 (n : Z) : Runtime := mkRuntime 0 n 0 0 [].

(** A new manager on a machine with [n] devices, device 0 active. *)
Definition fresh (n : Z) : Process := vtkCUDADeviceManager (rt0 n) 1000.

(** The lock can be taken. *)
Definition lock_free (p : Process) : Prop := regularLock p = Free.

(** The lock is there whenever some object holds a device: what
    [GetDevice] relies on when it allocates a lock only for an empty
    [ObjectToDeviceMap]. *)
Definition lock_consistent (p : Process) : Prop :=
  ObjectToDeviceMap (mgr (world p)) ≠ [] → regularLock p = Free.

(** ** Calls of the interface *)

Inductive Call : Type :=
  | CallGetNumberOfDevices
  | CallGetDevice (caller device : Z)
  | CallReturnDevice (caller device : Z)
  | CallGetStream (caller stream device : Z)
  | CallReturnStream (caller stream device : Z)
  | CallSynchronizeStream (stream : Z)
  | CallReserveGPU (stream : Z)
  | CallQueryDeviceForObject (object : Z)
  | CallQueryDeviceForStream (stream : Z)
  | CallDestroyEmptyStream (stream : Z).

Definition perform (c : Call) : Method unit :=
  match c with
  | CallGetNumberOfDevices => lift GetNumberOfDevices;; mret tt
  | CallGetDevice caller device => GetDevice caller device;; mret tt
  | CallReturnDevice caller device => ReturnDevice caller device;; mret tt
  | CallGetStream caller stream device => GetStream caller stream device;; mret tt
  | CallReturnStream caller stream device =>
      ReturnStream caller stream device;; mret tt
  | CallSynchronizeStream stream => SynchronizeStream stream;; mret tt
  | CallReserveGPU stream => ReserveGPU stream;; mret tt
  | CallQueryDeviceForObject object => QueryDeviceForObject object;; mret tt
  | CallQueryDeviceForStream stream => QueryDeviceForStream stream;; mret tt
  | CallDestroyEmptyStream stream => DestroyEmptyStream stream
  end.

(** What a call does to the world when it returns, by the methods with the
    lock left out. *)
Definition effect (c : Call) (w : World) : World :=
  match c with
  | CallGetNumberOfDevices => (GetNumberOfDevices w).2
  | CallGetDevice caller device => (GetDevice_nolock caller device w).2
  | CallReturnDevice caller device => (ReturnDevice_nolock caller device w).2
  | CallGetStream caller stream device =>
      (GetStream_nolock caller stream device w).2
  | CallReturnStream caller stream device =>
      (ReturnStream_nolock caller stream device w).2
  | CallSynchronizeStream stream => (SynchronizeStream_nolock stream w).2
  | CallReserveGPU stream => (ReserveGPU_nolock stream w).2
  | CallQueryDeviceForObject object => (QueryDeviceForObject_nolock object w).2
  | CallQueryDeviceForStream stream => (QueryDeviceForStream_nolock stream w).2
  | CallDestroyEmptyStream stream => DestroyEmptyStream_nolock stream w
  end.

(** A call of the interface that returns takes [p] to [p']. *)
Definition call_step (p p' : Process) : Prop :=
  ∃ c, perform c p = Returns tt p'.

(** [DestroyEmptyStream] is meant, as its name says, for a stream that no
    object uses. *)
Definition as_intended (c : Call) (p : Process) : Prop :=
  match c with
  | CallDestroyEmptyStream stream =>
      ∀ o, (stream, o) ∉ StreamToObjectMap (mgr (world p))
  | _ => True
  end.

(** The states a new manager can get to by calls that return. *)
Inductive reachable : Process → Prop :=
  | reachable_new rt brk : reachable (vtkCUDADeviceManager rt brk)
  | reachable_step p c p' :
      reachable p → as_intended c p → perform c p = Returns tt p' →
      reachable p'.

(** ** vtkCUDARendererInformationHandler: the clipping planes

    A shallow embedding of the clipping-plane part of
    [Lib/vtkCudaRendererInformationHandler.cxx]: [SetWorldToVoxelsMatrix],
    [SetVoxelsToWorldMatrix], [SetClippingPlanes] and [FigurePlanes].

    The floating-point arithmetic is a parameter: [float] and [double] with
    the conversions and the operations of [double] that [FigurePlanes] uses.
    The element type of the two 4x4 matrices is declared in a header; it is
    the parameter [elt] with its conversions from and to [double].  A
    modification time is a natural number, as [GetMTime] returns it, and so
    is [clipModified].  An array of 16 elements is a function of the index;
    the plane array is a list, written with [<[i:=x]>]. *)

Module RendererInformationHandler.

Class Arithmetic : Type := {
  float : Type;
  double : Type;
  elt : Type;
  to_float : double → float;
  to_double : float → double;
  elt_of_double : double → elt;
  double_of_elt : elt → double;
  dadd : double → double → double;
  dmul : double → double → double;
  ddiv : double → double → double;
  dneg : double → double;
  is_one : double → bool
}.

(** A [vtkPlane]: its normal and its origin. *)
Record Plane `{Arithmetic} : Type := mkPlane {
  normal : double * double * double;
  origin : double * double * double
}.

(** A [vtkPlaneCollection]: its modification time and its items. *)
Record PlaneCollection `{Arithmetic} : Type := mkPlaneCollection {
  MTime : N;
  items : list Plane
}.

Record Handler `{Arithmetic} : Type := mkHandler {
  NumberOfClippingPlanes : Z;
  ClippingPlanes : list float;
  clipModified : N;
  WorldToVoxelsMatrix : nat → elt;
  VoxelsToWorldMatrix : nat → elt
}.

Arguments mkPlane {_} _ _.
Arguments mkPlaneCollection {_} _ _.
Arguments mkHandler {_} _ _ _ _ _.

(** [a[k] = x]. *)
Definition store `{Arithmetic} (k : nat) (x : elt) (a : nat → elt) : nat → elt :=
  λ n, if decide (n = k) then x else a n.

(** The two nested loops that copy a [vtkMatrix4x4] ([GetElement(i,j)]) into
    a 16-element array, row by row. *)
Definition load_matrix `{Arithmetic} (matrix : nat → nat → double)
    (a : nat → elt) : nat → elt :=
  foldl (λ a i,
           foldl (λ a j, store (i * 4 + j) (elt_of_double (matrix i j)) a)
                 a [0; 1; 2; 3]%nat)
        a [0; 1; 2; 3]%nat.

Definition SetWorldToVoxelsMatrix `{Arithmetic} (matrix : nat → nat → double)
    (h : Handler) : Handler :=
  mkHandler (NumberOfClippingPlanes h) (ClippingPlanes h) 0
            (load_matrix matrix (WorldToVoxelsMatrix h)) (VoxelsToWorldMatrix h).

Definition SetVoxelsToWorldMatrix `{Arithmetic} (matrix : nat → nat → double)
    (h : Handler) : Handler :=
  mkHandler (NumberOfClippingPlanes h) (ClippingPlanes h) 0
            (WorldToVoxelsMatrix h) (load_matrix matrix (VoxelsToWorldMatrix h)).

(** The body of the loop of [FigurePlanes] for plane [i].  The three
    components just stored in the plane array are read back for the fourth
    one; they are named here instead of being looked up again. *)
Definition figure_plane `{Arithmetic} (h : Handler) (i : nat) (p : Plane)
    (planesArray : list float) : list float :=
  let V k := double_of_elt (VoxelsToWorldMatrix h k) in
  let W k := double_of_elt (WorldToVoxelsMatrix h k) in
  let '(n0, n1, n2) := normal p in
  let '(o0, o1, o2) := origin p in
  let a0 := to_float (dadd (dadd (dmul n0 (V 0)) (dmul n1 (V 4))) (dmul n2 (V 8)))%nat in
  let planesArray := <[(4 * i)%nat := a0]> planesArray in
  let a1 := to_float (dadd (dadd (dmul n0 (V 1)) (dmul n1 (V 5))) (dmul n2 (V 9)))%nat in
  let planesArray := <[(4 * i + 1)%nat := a1]> planesArray in
  let a2 := to_float (dadd (dadd (dmul n0 (V 2)) (dmul n1 (V 6))) (dmul n2 (V 10)))%nat in
  let planesArray := <[(4 * i + 2)%nat := a2]> planesArray in
  let v0 := (dadd (dadd (dadd (dmul o0 (W 0)) (dmul o1 (W 1))) (dmul o2 (W 2))) (W 3))%nat in
  let v1 := (dadd (dadd (dadd (dmul o0 (W 4)) (dmul o1 (W 5))) (dmul o2 (W 6))) (W 7))%nat in
  let v2 := (dadd (dadd (dadd (dmul o0 (W 8)) (dmul o1 (W 9))) (dmul o2 (W 10))) (W 11))%nat in
  let v3 := (dadd (dadd (dadd (dmul o0 (W 12)) (dmul o1 (W 13))) (dmul o2 (W 14))) (W 15))%nat in
  let '(v0, v1, v2) :=
    if negb (is_one v3) then (ddiv v0 v3, ddiv v1 v3, ddiv v2 v3)
    else (v0, v1, v2) in
  <[(4 * i + 3)%nat :=
      to_float (dneg (dadd (dadd (dmul (to_double a0) v0) (dmul (to_double a1) v1))
                           (dmul (to_double a2) v2)))]> planesArray.

(** The four entries the loop body computes for a plane: the normal in
    voxel coordinates and the offset of the plane. *)
Definition coefficients `{Arithmetic} (h : Handler) (p : Plane) : list float :=
  let V k := double_of_elt (VoxelsToWorldMatrix h k) in
  let W k := double_of_elt (WorldToVoxelsMatrix h k) in
  let '(n0, n1, n2) := normal p in
  let '(o0, o1, o2) := origin p in
  let a0 := to_float (dadd (dadd (dmul n0 (V 0)) (dmul n1 (V 4))) (dmul n2 (V 8)))%nat in
  let a1 := to_float (dadd (dadd (dmul n0 (V 1)) (dmul n1 (V 5))) (dmul n2 (V 9)))%nat in
  let a2 := to_float (dadd (dadd (dmul n0 (V 2)) (dmul n1 (V 6))) (dmul n2 (V 10)))%nat in
  let v0 := (dadd (dadd (dadd (dmul o0 (W 0)) (dmul o1 (W 1))) (dmul o2 (W 2))) (W 3))%nat in
  let v1 := (dadd (dadd (dadd (dmul o0 (W 4)) (dmul o1 (W 5))) (dmul o2 (W 6))) (W 7))%nat in
  let v2 := (dadd (dadd (dadd (dmul o0 (W 8)) (dmul o1 (W 9))) (dmul o2 (W 10))) (W 11))%nat in
  let v3 := (dadd (dadd (dadd (dmul o0 (W 12)) (dmul o1 (W 13))) (dmul o2 (W 14))) (W 15))%nat in
  let '(v0, v1, v2) :=
    if negb (is_one v3) then (ddiv v0 v3, ddiv v1 v3, ddiv v2 v3)
    else (v0, v1, v2) in
  [a0; a1; a2;
   to_float (dneg (dadd (dadd (dmul (to_double a0) v0) (dmul (to_double a1) v1))
                        (dmul (to_double a2) v2)))].

(** The loop of [FigurePlanes], from plane [i] on. *)
Fixpoint figure_loop `{Arithmetic} (h : Handler) (i : nat) (ps : list Plane)
    (planesArray : list float) : list float :=
  match ps with
  | [] => planesArray
  | p :: ps => figure_loop h (S i) ps (figure_plane h i p planesArray)
  end.

(** [FigurePlanes(planes, planesArray, numberOfPlanes)]: the result is
    [*numberOfPlanes] and the plane array. *)
Definition FigurePlanes `{Arithmetic} (h : Handler)
    (planes : option PlaneCollection) (planesArray : list float)
    : Z * list float :=
  let numberOfPlanes :=
    match planes with
    | Some pc => Z.of_nat (length (items pc))
    | None => 0
    end in
  if negb (numberOfPlanes =? 6) then (0, planesArray)
  else
    match planes with
    | Some pc => (numberOfPlanes, figure_loop h 0 (items pc) planesArray)
    | None => (numberOfPlanes, planesArray)
    end.

Definition SetClippingPlanes `{Arithmetic} (planes : option PlaneCollection)
    (h : Handler) : Handler :=
  match planes with
  | None => h
  | Some pc =>
      if (MTime pc <? clipModified h)%N then h
      else
        let h := mkHandler (NumberOfClippingPlanes h) (ClippingPlanes h)
                           (MTime pc) (WorldToVoxelsMatrix h)
                           (VoxelsToWorldMatrix h) in
        let (n, planesArray) := FigurePlanes h planes (ClippingPlanes h) in
        mkHandler n planesArray (clipModified h) (WorldToVoxelsMatrix h)
                  (VoxelsToWorldMatrix h)
  end.

(** An arithmetic on integers, to run the functions on. *)
Definition integer_arithmetic : Arithmetic :=
  {| float := Z; double := Z; elt := Z;
     to_float := id; to_double := id; elt_of_double := id; double_of_elt := id;
     dadd := Z.add; dmul := Z.mul; ddiv := Z.div; dneg := Z.opp;
     is_one := Z.eqb 1 |}.

End RendererInformationHandler.

(** * The methods with the lock left out

    Lemmas on the containers, the loops and the functions [_nolock]. *)

(** ** Container lemmas *)

Lemma index_present (k v : Z) (m : gmap Z Z) :
  m !! k = Some v → StdMap.index k m = (m, v).
Proof. intros H. unfold StdMap.index. by rewrite H. Qed.

Lemma index_absent (k : Z) (m : gmap Z Z) :
  m !! k = None → StdMap.index k m = (<[k:=0]> m, 0).
Proof. intros H. unfold StdMap.index. by rewrite H. Qed.

Lemma count_present (k v : Z) (m : gmap Z Z) :
  m !! k = Some v → StdMap.count k m = 1.
Proof. intros H. unfold StdMap.count. by rewrite H. Qed.

Lemma count_absent (k : Z) (m : gmap Z Z) :
  m !! k = None → StdMap.count k m = 0.
Proof. intros H. unfold StdMap.count. by rewrite H. Qed.

Lemma is_pair_true (k v : Z) (e : Z * Z) : is_pair k v e = true ↔ e = (k, v).
Proof.
  unfold is_pair. destruct e as [a b]. simpl.
  rewrite andb_true_iff, !Z.eqb_eq. split; [intros [-> ->]; done | by inversion 1].
Qed.

Lemma existsb_is_pair (k v : Z) (l : list (Z * Z)) :
  existsb (is_pair k v) l = true ↔ (k, v) ∈ l.
Proof.
  rewrite existsb_exists. split.
  - intros (e & Hin & He). apply is_pair_true in He. subst e.
    by apply list_elem_of_In.
  - intros Hin. exists (k, v). split; [by apply list_elem_of_In |].
    by apply is_pair_true.
Qed.

Lemma other_holder_false (caller device : Z) (od : list (Z * Z)) :
  other_holder caller device od = false ↔
  ∀ o, (o, device) ∈ od → o = caller.
Proof.
  unfold other_holder. induction od as [| [a b] od IH]; simpl.
  - split; [intros _ o Ho; by apply elem_of_nil in Ho | done].
  - rewrite orb_false_iff, IH. split.
    + intros [Hh Ht] o Ho. apply elem_of_cons in Ho as [Ho | Ho]; [| by apply Ht].
      inversion Ho; subst. destruct (Z.eqb_spec a caller); [done |].
      simpl in Hh. by rewrite Z.eqb_refl in Hh.
    + intros H. split.
      * destruct (Z.eqb_spec b device) as [-> |]; [| by rewrite andb_false_r].
        rewrite (H a) by (apply elem_of_cons; by left).
        by rewrite Z.eqb_refl.
      * intros o Ho. apply H. apply elem_of_cons. by right.
Qed.

Lemma insert_pair_perm (k v : Z) (m : list (Z * Z)) :
  MultiMap.insert_pair k v m ≡ₚ (k, v) :: m.
Proof.
  induction m as [| e r IH]; simpl; [done |].
  destruct (k <? e.1); [done |].
  rewrite IH. apply Permutation_swap.
Qed.

Lemma entries_empty : StdSet.entries ∅ = [].
Proof. unfold StdSet.entries. by rewrite elements_empty. Qed.

(** ** The loops of [ReturnDevice] *)

Lemma scan_devices_cons (c d : Z) (x : Z * Z) (l : list (Z * Z)) it f e emp :
  scan_devices c d (x :: l) it (f, e, emp) =
  scan_devices c d l (S it)
    (if is_pair c d x then (true, it, emp)
     else if x.2 =? d then (f, e, false) else (f, e, emp)).
Proof.
  unfold is_pair. simpl.
  destruct ((x.1 =? c) && (x.2 =? d)); [done |]. by destruct (x.2 =? d).
Qed.

Ltac shift_index it :=
  match goal with
  | |- context [(?n - it)%nat] =>
      replace (n - it)%nat with (S (n - S it)) by lia
  end.

Lemma scan_devices_spec (c d : Z) (l : list (Z * Z)) :
  ∀ it f e emp,
    let r := scan_devices c d l it (f, e, emp) in
    r.1.1 = f || existsb (is_pair c d) l ∧
    r.2 = emp && negb (other_holder c d l) ∧
    (existsb (is_pair c d) l = true →
       (it ≤ r.1.2)%nat ∧ l !! (r.1.2 - it)%nat = Some (c, d)) ∧
    (existsb (is_pair c d) l = false → r.1.2 = e).
Proof.
  induction l as [| x l IH]; intros it f e emp r.
  - subst r. simpl. rewrite orb_false_r, andb_true_r. repeat split; done.
  - subst r. rewrite scan_devices_cons.
    change (other_holder c d (x :: l))
      with (negb (x.1 =? c) && (x.2 =? d) || other_holder c d l).
    change (existsb (is_pair c d) (x :: l))
      with (is_pair c d x || existsb (is_pair c d) l).
    destruct (is_pair c d x) eqn:Hp.
    + destruct (IH (S it) true it emp) as (H1 & H2 & H3 & H4).
      apply is_pair_true in Hp. subst x. simpl fst. simpl snd.
      rewrite !Z.eqb_refl, H1, H2, orb_true_r. simpl.
      split_and!; [done | done | intros _ | done].
      destruct (existsb (is_pair c d) l) eqn:Hl.
      * destruct (H3 eq_refl) as [Hle Hlk]. split; [lia |].
        shift_index it. done.
      * rewrite (H4 eq_refl). split; [lia |]. by rewrite Nat.sub_diag.
    + simpl orb. unfold is_pair in Hp.
      destruct (Z.eqb_spec x.2 d) as [Hd | Hd].
      * rewrite andb_true_r in Hp. rewrite Hp. simpl.
        destruct (IH (S it) f e false) as (H1 & H2 & H3 & H4).
        rewrite H1, H2, andb_false_r.
        split_and!; [done | done | | done].
        intros Hl. destruct (H3 Hl) as [Hle Hlk]. split; [lia |].
        shift_index it. done.
      * rewrite andb_false_r. simpl.
        destruct (IH (S it) f e emp) as (H1 & H2 & H3 & H4).
        rewrite H1, H2.
        split_and!; [done | done | | done].
        intros Hl. destruct (H3 Hl) as [Hle Hlk]. split; [lia |].
        shift_index it. done.
Qed.

Lemma collect_streams_set (device : Z) (l : list (Z * Z)) :
  ∀ sd X, (collect_streams device l sd X).2 = X.
Proof.
  induction l as [| e r IH]; intros sd X; simpl; [done |].
  destruct (StdMap.index e.1 sd) as [sd' d]. destruct (d =? device); apply IH.
Qed.

(** ** Counting resets in the runtime log *)

Lemma nresets_issue (device : Z) (c : cuda_call) (rt : Runtime) :
  nresets device (issue c rt) =
  (nresets device rt + if decide (c = DeviceReset device) then 1 else 0)%nat.
Proof.
  unfold nresets, issue. simpl. rewrite filter_app, length_app. f_equal.
  rewrite filter_cons, filter_nil. by destruct (decide (c = DeviceReset device)).
Qed.

Lemma nresets_cudaSetDevice (device d : Z) (rt : Runtime) :
  nresets device (cudaSetDevice d rt) = nresets device rt.
Proof.
  change (nresets device (cudaSetDevice d rt))
    with (nresets device (issue (SetDevice d) rt)).
  rewrite nresets_issue. rewrite decide_False by done. lia.
Qed.

Lemma nresets_cudaDeviceReset (device : Z) (rt : Runtime) :
  nresets device (cudaDeviceReset rt) =
  (nresets device rt + if decide (active rt = device) then 1 else 0)%nat.
Proof.
  unfold cudaDeviceReset. rewrite nresets_issue.
  destruct (decide (active rt = device)) as [-> | Hne].
  - by rewrite decide_True.
  - rewrite decide_False; [done |]. intros [=]. done.
Qed.

Lemma reset_block_nresets (device d : Z) (rt : Runtime) :
  nresets d (reset_block device rt) =
  (nresets d rt + if decide (device = d) then 1 else 0)%nat.
Proof.
  unfold reset_block, cudaGetDevice.
  destruct (Z.eqb_spec device (active rt)) as [He | Hne]; simpl.
  - rewrite nresets_cudaDeviceReset. by rewrite He.
  - rewrite nresets_cudaSetDevice, nresets_cudaDeviceReset, nresets_cudaSetDevice.
    done.
Qed.

Lemma reset_block_active (device : Z) (rt : Runtime) :
  active (reset_block device rt) = active rt.
Proof.
  unfold reset_block, cudaGetDevice.
  destruct (Z.eqb_spec device (active rt)) as [He | Hne]; simpl; done.
Qed.

(** ** [GetNumberOfDevices], [GetDevice_nolock], [ReturnDevice_nolock] *)

Lemma GetNumberOfDevices_ok (w : World) :
  count_status (cuda w) = 0 →
  GetNumberOfDevices w = (device_count (cuda w), w).
Proof. intros H. unfold GetNumberOfDevices. by rewrite H. Qed.

Lemma invalid_device_valid (device : Z) (w : World) :
  0 ≤ device < (GetNumberOfDevices w).1 →
  invalid_device device w = (false, w).
Proof.
  intros Hv. unfold invalid_device, GetNumberOfDevices in *.
  destruct (Z.ltb_spec device 0); [lia |].
  destruct (negb (count_status (cuda w) =? 0)); simpl in Hv; [lia |].
  destruct (Z.geb_spec device (device_count (cuda w))); [lia | done].
Qed.

Lemma invalid_device_invalid (device : Z) (w : World) :
  device < 0 ∨ (GetNumberOfDevices w).1 ≤ device →
  (invalid_device device w).1 = true ∧
  mgr (invalid_device device w).2 = mgr w ∧
  cuda (invalid_device device w).2 = cuda w.
Proof.
  intros Hv. unfold invalid_device, GetNumberOfDevices in *.
  destruct (Z.ltb_spec device 0); [done |].
  destruct (negb (count_status (cuda w) =? 0)); simpl in *.
  - destruct (Z.geb_spec device (-1)); [done | lia].
  - destruct (Z.geb_spec device (device_count (cuda w))); [done | lia].
Qed.

Lemma GetDevice_valid (caller device : Z) (w : World) :
  0 ≤ device < (GetNumberOfDevices w).1 →
  GetDevice_nolock caller device w =
  (false,
   with_ObjectToDeviceMap
     (MultiMap.insert_pair caller device (ObjectToDeviceMap (mgr w))) w).
Proof.
  intros Hv. unfold GetDevice_nolock. by rewrite invalid_device_valid.
Qed.

Lemma GetDevice_invalid (caller device : Z) (w : World) :
  device < 0 ∨ (GetNumberOfDevices w).1 ≤ device →
  GetDevice_nolock caller device w =
  (true, vtkErrorMacro msg_invalid_device (invalid_device device w).2).
Proof.
  intros Hv. unfold GetDevice_nolock.
  destruct (invalid_device_invalid device w Hv) as (Hi & _).
  destruct (invalid_device device w) as [b w1]. simpl in Hi. by subst b.
Qed.

Lemma ReturnDevice_not_found (caller device : Z) (w : World) :
  (caller, device) ∉ ObjectToDeviceMap (mgr w) →
  ReturnDevice_nolock caller device w = (true, vtkErrorMacro msg_pair_not_found w).
Proof.
  intros Hn. unfold ReturnDevice_nolock.
  pose proof (scan_devices_spec caller device (ObjectToDeviceMap (mgr w))
                0 false 0%nat true) as (Hf & _).
  destruct (scan_devices _ _ _ _ _) as [[f e] emp]. simpl in Hf.
  destruct (existsb (is_pair caller device) (ObjectToDeviceMap (mgr w))) eqn:He.
  - apply existsb_is_pair in He. done.
  - by subst f.
Qed.

Lemma ReturnDevice_found (caller device : Z) (w : World) :
  (caller, device) ∈ ObjectToDeviceMap (mgr w) →
  ∃ it sd,
    ObjectToDeviceMap (mgr w) !! it = Some (caller, device) ∧
    ReturnDevice_nolock caller device w =
    (false,
     mkWorld
       (mkManager (delete it (ObjectToDeviceMap (mgr w))) sd
                  (StreamToObjectMap (mgr w)))
       (if other_holder caller device (ObjectToDeviceMap (mgr w))
        then cuda w else reset_block device (cuda w))
       (heap w) (errors w)).
Proof.
  intros Hin. unfold ReturnDevice_nolock.
  pose proof (scan_devices_spec caller device (ObjectToDeviceMap (mgr w))
                0 false 0%nat true) as (Hf & Hemp & Hit & _).
  apply existsb_is_pair in Hin. rewrite Hin in Hf. specialize (Hit Hin).
  destruct (scan_devices _ _ _ _ _) as [[f e] emp]. simpl in Hf, Hemp, Hit.
  subst f emp. destruct Hit as [_ Hit]. rewrite Nat.sub_0_r in Hit.
  simpl negb.
  pose proof (collect_streams_set device (StreamToObjectMap (mgr w))
                (StreamToDeviceMap (mgr w)) ∅) as HX.
  destruct (collect_streams _ _ _ _) as [sd X]. simpl in HX. subst X.
  rewrite entries_empty. simpl foldl.
  exists e, sd. split; [done |].
  destruct (other_holder caller device (ObjectToDeviceMap (mgr w))); simpl; done.
Qed.

Lemma other_holder_true (caller device o : Z) (od : list (Z * Z)) :
  (o, device) ∈ od → o ≠ caller → other_holder caller device od = true.
Proof.
  intros Hin Hne. destruct (other_holder caller device od) eqn:Hoh; [done |].
  destruct Hne. eapply other_holder_false; eauto.
Qed.

(** [ReturnDevice_nolock] never touches [StreamToObjectMap]: the set of
    streams to return stays empty, so no stream is returned. *)
Lemma ReturnDevice_StreamToObjectMap (caller device : Z) (w : World) :
  StreamToObjectMap (mgr (ReturnDevice_nolock caller device w).2) =
  StreamToObjectMap (mgr w).
Proof.
  destruct (decide ((caller, device) ∈ ObjectToDeviceMap (mgr w))) as [Hin | Hn].
  - destruct (ReturnDevice_found caller device w Hin) as (it & sd & _ & ->). done.
  - by rewrite ReturnDevice_not_found.
Qed.

(** On success the device is reset exactly when no object other than the
    caller holds it; further entries of the caller itself do not count. *)
Lemma ReturnDevice_resets (caller device : Z) (w : World) :
  (caller, device) ∈ ObjectToDeviceMap (mgr w) →
  resets device (ReturnDevice_nolock caller device w).2 =
  (resets device w +
   if other_holder caller device (ObjectToDeviceMap (mgr w)) then 0 else 1)%nat.
Proof.
  intros Hin.
  destruct (ReturnDevice_found caller device w Hin) as (it & sd & _ & ->).
  unfold resets. simpl.
  destruct (other_holder caller device (ObjectToDeviceMap (mgr w))); [lia |].
  rewrite reset_block_nresets. by rewrite decide_True.
Qed.

(** ** Acquiring and returning devices *)

(** Two objects acquire a device nobody holds and return it: the second
    return resets it. *)
Lemma two_owners_one_reset_nolock (w : World) (A B d : Z) :
  A ≠ B →
  count_status (cuda w) = 0 →
  0 ≤ d < device_count (cuda w) →
  (∀ o, (o, d) ∉ ObjectToDeviceMap (mgr w)) →
  let gA := GetDevice_nolock A d w in
  let gB := GetDevice_nolock B d gA.2 in
  let rA := ReturnDevice_nolock A d gB.2 in
  let rB := ReturnDevice_nolock B d rA.2 in
  gA.1 = false ∧ gB.1 = false ∧
  rA.1 = false ∧ resets d rA.2 = resets d w ∧
  rB.1 = false ∧ resets d rB.2 = S (resets d w) ∧
  ObjectToDeviceMap (mgr rB.2) ≡ₚ ObjectToDeviceMap (mgr w).
Proof.
  intros Hne Hst Hd Hfree gA gB rA rB.
  assert (HgA : gA = (false, with_ObjectToDeviceMap
            (MultiMap.insert_pair A d (ObjectToDeviceMap (mgr w))) w)).
  { apply GetDevice_valid. by rewrite GetNumberOfDevices_ok. }
  assert (HgB : gB = (false, with_ObjectToDeviceMap
            (MultiMap.insert_pair B d (ObjectToDeviceMap (mgr gA.2))) gA.2)).
  { apply GetDevice_valid. rewrite GetNumberOfDevices_ok; by rewrite HgA. }
  set (od := ObjectToDeviceMap (mgr w)) in *.
  set (od2 := MultiMap.insert_pair B d (MultiMap.insert_pair A d od)).
  assert (Hod2 : ObjectToDeviceMap (mgr gB.2) = od2) by (by rewrite HgB, HgA).
  assert (Hperm2 : od2 ≡ₚ (B, d) :: (A, d) :: od).
  { unfold od2. by rewrite !insert_pair_perm. }
  assert (HinA : (A, d) ∈ ObjectToDeviceMap (mgr gB.2)).
  { rewrite Hod2, Hperm2, !elem_of_cons. auto. }
  destruct (ReturnDevice_found A d gB.2 HinA) as (itA & sdA & HitA & HrA).
  fold rA in HrA. rewrite Hod2 in HitA, HrA.
  rewrite (other_holder_true A d B od2) in HrA;
    [| rewrite Hperm2, !elem_of_cons; auto | done].
  assert (Hperm3 : ObjectToDeviceMap (mgr rA.2) ≡ₚ (B, d) :: od).
  { rewrite HrA. simpl. apply (Permutation_cons_inv (a := (A, d))).
    rewrite <- (delete_Permutation od2 itA (A, d)) by done.
    rewrite Hperm2. apply Permutation_swap. }
  assert (HinB : (B, d) ∈ ObjectToDeviceMap (mgr rA.2)).
  { rewrite Hperm3, elem_of_cons. auto. }
  assert (HohB : other_holder B d (ObjectToDeviceMap (mgr rA.2)) = false).
  { apply other_holder_false. intros o. rewrite Hperm3.
    intros [Ho | Ho]%elem_of_cons; [congruence | by apply Hfree in Ho]. }
  pose proof (ReturnDevice_resets B d rA.2 HinB) as HresB.
  destruct (ReturnDevice_found B d rA.2 HinB) as (itB & sdB & HitB & HrB).
  fold rB in HrB, HresB. rewrite HohB in HresB.
  assert (Hres3 : resets d rA.2 = resets d w).
  { rewrite HrA. unfold resets. simpl. by rewrite HgB, HgA. }
  split_and!.
  - by rewrite HgA.
  - by rewrite HgB.
  - by rewrite HrA.
  - done.
  - by rewrite HrB.
  - rewrite HresB, Hres3. lia.
  - rewrite HrB. simpl. apply (Permutation_cons_inv (a := (B, d))).
    rewrite <- delete_Permutation by done. done.
Qed.

(** What [GetDevice_nolock] does for an invalid and for a valid device. *)
Lemma GetDevice_spec_nolock (caller device : Z) (w : World) :
  let n := (GetNumberOfDevices w).1 in
  let r := GetDevice_nolock caller device w in
  (device < 0 ∨ n ≤ device →
     r.1 = true ∧ last (errors r.2) = Some msg_invalid_device ∧
     mgr r.2 = mgr w ∧ cuda r.2 = cuda w) ∧
  (0 ≤ device < n →
     r.1 = false ∧
     ObjectToDeviceMap (mgr r.2) ≡ₚ (caller, device) :: ObjectToDeviceMap (mgr w) ∧
     length (filter (λ e, e = (caller, device)) (ObjectToDeviceMap (mgr r.2))) =
       S (length (filter (λ e, e = (caller, device)) (ObjectToDeviceMap (mgr w)))) ∧
     StreamToDeviceMap (mgr r.2) = StreamToDeviceMap (mgr w) ∧
     StreamToObjectMap (mgr r.2) = StreamToObjectMap (mgr w) ∧
     cuda r.2 = cuda w ∧ errors r.2 = errors w).
Proof.
  intros n r. split; intros Hv.
  - subst r. rewrite GetDevice_invalid by done.
    destruct (invalid_device_invalid device w Hv) as (_ & Hm & Hc).
    cbn [fst snd vtkErrorMacro errors mgr cuda].
    rewrite last_snoc. done.
  - subst r. rewrite GetDevice_valid by done. simpl.
    split_and!; try done.
    + apply insert_pair_perm.
    + rewrite insert_pair_perm. rewrite filter_cons_True by done. done.
Qed.

(** ** [GetStream_nolock] *)

Lemma with_StreamToDeviceMap_id (w : World) :
  with_StreamToDeviceMap (StreamToDeviceMap (mgr w)) w = w.
Proof. by destruct w as [[od sd so] rt h errs]. Qed.

Lemma existsb_stream_owner (caller stream : Z) (l : list (Z * Z)) :
  existsb (λ e, (e.1 =? stream) && (e.2 =? caller)) l = true ↔
  (stream, caller) ∈ l.
Proof. apply (existsb_is_pair stream caller l). Qed.

Lemma GetStream_mismatch (caller stream A B : Z) (w : World) :
  stream ≠ 0 →
  StreamToDeviceMap (mgr w) !! stream = Some A →
  B ≠ A →
  0 ≤ B < (GetNumberOfDevices w).1 →
  GetStream_nolock caller stream B w =
  (true, stream, vtkErrorMacro msg_stream_device_mismatch w).
Proof.
  intros Hs Hb Hne Hv.
  unfold GetStream_nolock. rewrite invalid_device_valid by done.
  rewrite (count_present _ _ _ Hb), (index_present _ _ _ Hb). simpl snd.
  destruct (Z.eqb_spec stream 0); [done |].
  destruct (Z.eqb_spec A B); [congruence |]. done.
Qed.

(** ** Acquiring a recorded stream again *)

(** A recorded pair, a valid device and no other binding: nothing changes. *)
Lemma GetStream_idempotent_nolock (caller stream device : Z) (w : World) :
  0 ≤ device < (GetNumberOfDevices w).1 →
  (stream, caller) ∈ StreamToObjectMap (mgr w) →
  (∀ d, StreamToDeviceMap (mgr w) !! stream = Some d → d = device) →
  GetStream_nolock caller stream device w = (false, stream, w).
Proof.
  intros Hv Hin Hb.
  unfold GetStream_nolock. rewrite invalid_device_valid by done.
  apply existsb_stream_owner in Hin. rewrite Hin.
  destruct (StreamToDeviceMap (mgr w) !! stream) as [d |] eqn:Hd.
  - rewrite (count_present _ _ _ Hd), (index_present _ _ _ Hd). simpl snd.
    rewrite (Hb d eq_refl), !Z.eqb_refl. by rewrite andb_false_r.
  - rewrite (count_absent _ _ Hd). by rewrite andb_false_r.
Qed.

(** ** [ReturnStream_nolock] *)

Lemma find_triple_absent (caller stream device : Z) (l : list (Z * Z)) :
  ∀ it sd,
    (stream, caller) ∉ l →
    find_triple caller stream device l it sd = (None, sd).
Proof.
  induction l as [| e l IH]; intros it sd Hn; simpl; [done |].
  apply not_elem_of_cons in Hn as [Hne Hn].
  fold (is_pair stream caller e). destruct (is_pair stream caller e) eqn:Hp.
  - apply is_pair_true in Hp. congruence.
  - by apply IH.
Qed.

Lemma find_triple_other_device (caller stream device d0 : Z) (l : list (Z * Z)) :
  ∀ it sd,
    sd !! stream = Some d0 → d0 ≠ device →
    find_triple caller stream device l it sd = (None, sd).
Proof.
  induction l as [| e l IH]; intros it sd Hb Hne; simpl; [done |].
  fold (is_pair stream caller e). destruct (is_pair stream caller e) eqn:Hp.
  - apply is_pair_true in Hp. subst e. simpl fst.
    rewrite (index_present _ _ _ Hb).
    destruct (Z.eqb_spec d0 device); [done |]. by apply IH.
  - by apply IH.
Qed.

Lemma find_triple_found (caller stream device : Z) (l : list (Z * Z)) :
  ∀ it sd,
    sd !! stream = Some device → (stream, caller) ∈ l →
    ∃ i, l !! i = Some (stream, caller) ∧
         find_triple caller stream device l it sd = (Some (it + i)%nat, sd).
Proof.
  induction l as [| e l IH]; intros it sd Hb Hin; simpl.
  - by apply elem_of_nil in Hin.
  - fold (is_pair stream caller e). destruct (is_pair stream caller e) eqn:Hp.
    + apply is_pair_true in Hp. subst e. simpl fst.
      rewrite (index_present _ _ _ Hb), Z.eqb_refl.
      exists 0%nat. by rewrite Nat.add_0_r.
    + apply elem_of_cons in Hin as [Heq | Hin].
      { symmetry in Heq. apply is_pair_true in Heq. congruence. }
      destruct (IH (S it) sd Hb Hin) as (i & Hi & ->).
      exists (S i). split; [done |]. do 2 f_equal. lia.
Qed.

Lemma count_zero (stream : Z) (so : list (Z * Z)) :
  (MultiMap.count stream so =? 0) = true ↔ ∀ o, (stream, o) ∉ so.
Proof.
  unfold MultiMap.count. rewrite Z.eqb_eq. split.
  - intros Hc o Hin.
    assert (Hf : (stream, o) ∈ filter (λ e : Z * Z, e.1 = stream) so)
      by (by apply list_elem_of_filter).
    destruct (filter _ so); [by apply elem_of_nil in Hf | simpl in Hc; lia].
  - intros Hn. destruct (filter (λ e : Z * Z, e.1 = stream) so) as [| [s o] f] eqn:Hf;
      [done |].
    assert (Hin : (s, o) ∈ filter (λ e : Z * Z, e.1 = stream) so)
      by (rewrite Hf; apply elem_of_cons; by left).
    apply list_elem_of_filter in Hin as [Hs Hin]. simpl in Hs. subst s.
    by apply Hn in Hin.
Qed.

Lemma ReturnStream_not_found (caller stream device : Z) (w : World) :
  ((stream, caller) ∈ StreamToObjectMap (mgr w) →
   is_Some (StreamToDeviceMap (mgr w) !! stream)) →
  ¬ ((stream, caller) ∈ StreamToObjectMap (mgr w) ∧
     StreamToDeviceMap (mgr w) !! stream = Some device) →
  ReturnStream_nolock caller stream device w =
  (true, vtkErrorMacro msg_pair_not_found w).
Proof.
  intros Hinv Hn. unfold ReturnStream_nolock.
  destruct (decide ((stream, caller) ∈ StreamToObjectMap (mgr w))) as [Hin | Hout].
  - destruct (Hinv Hin) as [d0 Hd0].
    rewrite (find_triple_other_device caller stream device d0);
      [| done | intros ->; by apply Hn].
    by rewrite with_StreamToDeviceMap_id.
  - rewrite find_triple_absent by done.
    by rewrite with_StreamToDeviceMap_id.
Qed.

Lemma ReturnStream_found (caller stream device : Z) (w : World) :
  (stream, caller) ∈ StreamToObjectMap (mgr w) →
  StreamToDeviceMap (mgr w) !! stream = Some device →
  ∃ it,
    StreamToObjectMap (mgr w) !! it = Some (stream, caller) ∧
    ReturnStream_nolock caller stream device w =
    (false,
     mkWorld
       (mkManager (ObjectToDeviceMap (mgr w))
          (if MultiMap.count stream (delete it (StreamToObjectMap (mgr w))) =? 0
           then delete stream (StreamToDeviceMap (mgr w))
           else StreamToDeviceMap (mgr w))
          (delete it (StreamToObjectMap (mgr w))))
       (cuda w) (heap w) (errors w)).
Proof.
  intros Hin Hb. unfold ReturnStream_nolock.
  destruct (find_triple_found caller stream device _ 0%nat _ Hb Hin)
    as (it & Hit & ->).
  exists it. split; [done |]. simpl.
  unfold MultiMap.erase_at, StdMap.erase.
  by destruct (MultiMap.count stream _ =? 0).
Qed.

(** ** Returning a stream *)


(** ** [SynchronizeStream_nolock], [ReserveGPU_nolock] *)

Lemma synchronized_calls (stream device : Z) (rt : Runtime) :
  calls (synchronized stream device rt) =
  calls rt ++ [SetDevice device; StreamSynchronize stream; SetDevice (active rt)].
Proof. unfold synchronized. simpl. by rewrite <- !app_assoc. Qed.

Lemma synchronized_active (stream device : Z) (rt : Runtime) :
  active (synchronized stream device rt) = active rt.
Proof. done. Qed.

Lemma SynchronizeStream_bound (stream device : Z) (w : World) :
  StreamToDeviceMap (mgr w) !! stream = Some device →
  SynchronizeStream_nolock stream w =
  (negb (last_error (cuda w) =? 0),
   with_cuda (synchronized stream device (cuda w)) w).
Proof.
  intros Hb. unfold SynchronizeStream_nolock.
  rewrite (count_present _ _ _ Hb), (index_present _ _ _ Hb). simpl.
  by rewrite with_StreamToDeviceMap_id.
Qed.

Lemma SynchronizeStream_unbound (stream : Z) (w : World) :
  StreamToDeviceMap (mgr w) !! stream = None →
  SynchronizeStream_nolock stream w = (true, vtkErrorMacro msg_unused_stream w).
Proof.
  intros Hb. unfold SynchronizeStream_nolock. by rewrite (count_absent _ _ Hb).
Qed.

Lemma ReserveGPU_bound (stream device : Z) (w : World) :
  StreamToDeviceMap (mgr w) !! stream = Some device →
  ReserveGPU_nolock stream w =
  (negb (last_error (cuda w) =? 0), with_cuda (reserved device (cuda w)) w).
Proof.
  intros Hb. unfold ReserveGPU_nolock.
  rewrite (count_present _ _ _ Hb), (index_present _ _ _ Hb). simpl.
  by rewrite with_StreamToDeviceMap_id.
Qed.

Lemma ReserveGPU_unbound (stream : Z) (w : World) :
  StreamToDeviceMap (mgr w) !! stream = None →
  ReserveGPU_nolock stream w = (true, vtkErrorMacro msg_unused_stream w).
Proof.
  intros Hb. unfold ReserveGPU_nolock. by rewrite (count_absent _ _ Hb).
Qed.

(** ** The active device *)

(** The active device after [SynchronizeStream_nolock] and after
    [ReserveGPU_nolock], for a bound and for an unbound stream. *)
Lemma active_device_after_stream_calls_nolock (stream : Z) (w : World) :
  let s := SynchronizeStream_nolock stream w in
  let p := ReserveGPU_nolock stream w in
  (∀ device,
     StreamToDeviceMap (mgr w) !! stream = Some device →
     active (cuda s.2) = active (cuda w) ∧
     calls (cuda s.2) =
       calls (cuda w) ++
       [SetDevice device; StreamSynchronize stream; SetDevice (active (cuda w))] ∧
     mgr s.2 = mgr w ∧
     active (cuda p.2) = device ∧
     calls (cuda p.2) = calls (cuda w) ++ [SetDevice device] ∧
     mgr p.2 = mgr w) ∧
  (StreamToDeviceMap (mgr w) !! stream = None →
     s.1 = true ∧ errors s.2 = errors w ++ [msg_unused_stream] ∧
     mgr s.2 = mgr w ∧ cuda s.2 = cuda w ∧
     p.1 = true ∧ errors p.2 = errors w ++ [msg_unused_stream] ∧
     mgr p.2 = mgr w ∧ cuda p.2 = cuda w).
Proof.
  intros s p. subst s p. split.
  - intros device Hb.
    rewrite (SynchronizeStream_bound _ _ _ Hb), (ReserveGPU_bound _ _ _ Hb).
    cbn [snd with_cuda cuda mgr]. rewrite synchronized_calls. done.
  - intros Hb. rewrite SynchronizeStream_unbound, ReserveGPU_unbound by done.
    done.
Qed.

(** ** Erasing a binding *)


(** ** Every owned stream stays bound *)

Lemma owned_streams_bound_mgr (w w' : World) :
  mgr w' = mgr w → owned_streams_bound w → owned_streams_bound w'.
Proof. unfold owned_streams_bound. by intros ->. Qed.

Lemma invalid_device_mgr (device : Z) (w : World) :
  mgr (invalid_device device w).2 = mgr w.
Proof.
  unfold invalid_device, GetNumberOfDevices.
  destruct (device <? 0); [done |].
  by destruct (negb (count_status (cuda w) =? 0)).
Qed.

Lemma index_is_Some (k s : Z) (sd : gmap Z Z) :
  is_Some (sd !! s) → is_Some ((StdMap.index k sd).1 !! s).
Proof.
  intros Hs. unfold StdMap.index. destruct (sd !! k) eqn:Hk; [done |].
  simpl. destruct (decide (k = s)) as [-> | Hne].
  - by rewrite lookup_insert_eq.
  - by rewrite lookup_insert_ne.
Qed.

Lemma collect_streams_is_Some (device s : Z) (l : list (Z * Z)) :
  ∀ sd X,
    is_Some (sd !! s) → is_Some ((collect_streams device l sd X).1 !! s).
Proof.
  induction l as [| e l IH]; intros sd X Hs; simpl; [done |].
  pose proof (index_is_Some e.1 s sd Hs) as Hs'.
  destruct (StdMap.index e.1 sd) as [sd' d]. destruct (d =? device); by apply IH.
Qed.

Lemma insert_pair_is_Some (k v s : Z) (sd : gmap Z Z) :
  s = k ∨ is_Some (sd !! s) → is_Some (StdMap.insert_pair k v sd !! s).
Proof.
  unfold StdMap.insert_pair. intros [-> | Hs].
  - destruct (sd !! k) eqn:Hk; [by rewrite Hk | by rewrite lookup_insert_eq].
  - destruct (sd !! k) eqn:Hk; [done |].
    destruct (decide (k = s)) as [-> | Hne].
    + by rewrite lookup_insert_eq.
    + by rewrite lookup_insert_ne.
Qed.

Lemma elem_of_delete_at (x : Z * Z) (it : nat) (l : list (Z * Z)) :
  x ∈ delete it l → x ∈ l.
Proof.
  revert it. induction l as [| y l IH]; intros [| it]; simpl; try done.
  - intros H. apply elem_of_cons. by right.
  - intros [-> | H]%elem_of_cons; apply elem_of_cons; [by left |].
    right. by eapply IH.
Qed.

Lemma GetDevice_bound (caller device : Z) (w : World) :
  owned_streams_bound w → owned_streams_bound (GetDevice_nolock caller device w).2.
Proof.
  intros Hinv. unfold GetDevice_nolock.
  pose proof (invalid_device_mgr device w) as Hm.
  destruct (invalid_device device w) as [[] w1]; simpl in Hm.
  - by apply (owned_streams_bound_mgr w).
  - unfold owned_streams_bound. simpl. rewrite Hm. apply Hinv.
Qed.

Lemma ReturnDevice_bound (caller device : Z) (w : World) :
  owned_streams_bound w → owned_streams_bound (ReturnDevice_nolock caller device w).2.
Proof.
  intros Hinv.
  destruct (decide ((caller, device) ∈ ObjectToDeviceMap (mgr w))) as [Hin | Hn].
  - unfold ReturnDevice_nolock.
    destruct (scan_devices _ _ _ _ _) as [[f e] emp].
    destruct (negb f); [by apply (owned_streams_bound_mgr w) |].
    pose proof (collect_streams_set device (StreamToObjectMap (mgr w))
                  (StreamToDeviceMap (mgr w)) ∅) as HX.
    pose proof (λ s, collect_streams_is_Some device s (StreamToObjectMap (mgr w))
                  (StreamToDeviceMap (mgr w)) ∅) as Hsd.
    destruct (collect_streams _ _ _ _) as [sd X]. simpl in HX, Hsd. subst X.
    rewrite entries_empty. simpl foldl.
    assert (owned_streams_bound
              (with_ObjectToDeviceMap
                 (MultiMap.erase_at e
                    (ObjectToDeviceMap (mgr (with_StreamToDeviceMap sd w))))
                 (with_StreamToDeviceMap sd w))) as Hb.
    { intros s o Hso. simpl in *. apply Hsd. by eapply Hinv. }
    destruct emp; [| done]. by apply (owned_streams_bound_mgr _ _ eq_refl).
  - rewrite ReturnDevice_not_found by done.
    by apply (owned_streams_bound_mgr w).
Qed.

Lemma GetStream_bound (caller stream device : Z) (w : World) :
  owned_streams_bound w →
  owned_streams_bound (GetStream_nolock caller stream device w).2.
Proof.
  intros Hinv. unfold GetStream_nolock.
  pose proof (invalid_device_mgr device w) as Hm.
  destruct (invalid_device device w) as [[] w1]; simpl in Hm.
  { by apply (owned_streams_bound_mgr w). }
  assert (Hinv1 : owned_streams_bound w1) by by apply (owned_streams_bound_mgr w).
  destruct (_ && _ && _); [by apply (owned_streams_bound_mgr w1) |].
  destruct (existsb _ _); [done |].
  assert (Hgen : ∀ s' w3,
            StreamToObjectMap (mgr w3) =
              MultiMap.insert_pair s' caller (StreamToObjectMap (mgr w1)) →
            StreamToDeviceMap (mgr w3) =
              StdMap.insert_pair s' device (StreamToDeviceMap (mgr w1)) →
            owned_streams_bound w3).
  { intros s' w3 Hso Hsd s o. rewrite Hso, Hsd, insert_pair_perm.
    intros [[= -> ->] | Hin]%elem_of_cons; apply insert_pair_is_Some;
      [by left | right; by eapply Hinv1]. }
  destruct (stream =? 0).
  - by apply (Hgen (heap w1)).
  - by apply (Hgen stream).
Qed.

Lemma ReturnStream_bound (caller stream device : Z) (w : World) :
  owned_streams_bound w →
  owned_streams_bound (ReturnStream_nolock caller stream device w).2.
Proof.
  intros Hinv.
  destruct (decide ((stream, caller) ∈ StreamToObjectMap (mgr w) ∧
                    StreamToDeviceMap (mgr w) !! stream = Some device))
    as [[Hin Hb] | Hn].
  - destruct (ReturnStream_found caller stream device w Hin Hb) as (it & _ & ->).
    intros s o Hso. simpl in *.
    pose proof (elem_of_delete_at _ _ _ Hso) as Hso'.
    destruct (MultiMap.count stream _ =? 0) eqn:Hc; [| by eapply Hinv].
    rewrite count_zero in Hc.
    destruct (decide (s = stream)) as [-> | Hne]; [by apply Hc in Hso |].
    rewrite lookup_delete_ne by done. by eapply Hinv.
  - rewrite ReturnStream_not_found by (done || apply Hinv).
    by apply (owned_streams_bound_mgr w).
Qed.

Lemma SynchronizeStream_mgr (stream : Z) (w : World) :
  mgr (SynchronizeStream_nolock stream w).2 = mgr w.
Proof.
  destruct (StreamToDeviceMap (mgr w) !! stream) as [d |] eqn:Hb.
  - by rewrite (SynchronizeStream_bound _ _ _ Hb).
  - by rewrite SynchronizeStream_unbound.
Qed.

Lemma ReserveGPU_mgr (stream : Z) (w : World) :
  mgr (ReserveGPU_nolock stream w).2 = mgr w.
Proof.
  destruct (StreamToDeviceMap (mgr w) !! stream) as [d |] eqn:Hb.
  - by rewrite (ReserveGPU_bound _ _ _ Hb).
  - by rewrite ReserveGPU_unbound.
Qed.

Lemma QueryDeviceForObject_mgr (object : Z) (w : World) :
  mgr (QueryDeviceForObject_nolock object w).2 = mgr w.
Proof. unfold QueryDeviceForObject_nolock. by destruct (_ =? 1). Qed.

Lemma QueryDeviceForStream_mgr (stream : Z) (w : World) :
  mgr (QueryDeviceForStream_nolock stream w).2 = mgr w.
Proof.
  unfold QueryDeviceForStream_nolock.
  destruct (StreamToDeviceMap (mgr w) !! stream) as [d |] eqn:Hb.
  - rewrite (count_present _ _ _ Hb), (index_present _ _ _ Hb). simpl.
    by destruct (mgr w).
  - by rewrite (count_absent _ _ Hb).
Qed.

Lemma DestroyEmptyStream_bound (stream : Z) (w : World) :
  (∀ o, (stream, o) ∉ StreamToObjectMap (mgr w)) →
  owned_streams_bound w → owned_streams_bound (DestroyEmptyStream_nolock stream w).
Proof.
  intros Hempty Hinv. unfold DestroyEmptyStream_nolock.
  pose proof (SynchronizeStream_mgr stream w) as Hm.
  destruct (SynchronizeStream_nolock stream w) as [b w1]. simpl in *.
  destruct (StreamToDeviceMap (mgr w1) !! stream) eqn:Hb.
  - intros s o Hso. simpl in *. rewrite Hm in *.
    destruct (decide (s = stream)) as [-> | Hne]; [by apply Hempty in Hso |].
    unfold StdMap.erase. rewrite lookup_delete_ne by done. by eapply Hinv.
  - apply (owned_streams_bound_mgr w1); [done |].
    by apply (owned_streams_bound_mgr w).
Qed.

(** ** [GetStream_nolock]: creating, adopting and sharing a stream *)

Lemma not_existsb_stream_owner (caller stream : Z) (l : list (Z * Z)) :
  (stream, caller) ∉ l →
  existsb (λ e, (e.1 =? stream) && (e.2 =? caller)) l = false.
Proof.
  intros Hn. destruct (existsb _ l) eqn:He; [| done].
  apply existsb_stream_owner in He. done.
Qed.

Lemma GetStream_inserts (caller stream device : Z) (w : World) :
  0 ≤ device < (GetNumberOfDevices w).1 →
  (stream ≠ 0 → ∀ d, StreamToDeviceMap (mgr w) !! stream = Some d → d = device) →
  (stream, caller) ∉ StreamToObjectMap (mgr w) →
  GetStream_nolock caller stream device w =
  if stream =? 0
  then
    (false, heap w,
     mkWorld
       (mkManager (ObjectToDeviceMap (mgr w))
          (StdMap.insert_pair (heap w) device (StreamToDeviceMap (mgr w)))
          (MultiMap.insert_pair (heap w) caller (StreamToObjectMap (mgr w))))
       (cudaStreamCreate (heap w) (cudaSetDevice device (cuda w)))
       (heap w + 1) (errors w))
  else
    (false, stream,
     mkWorld
       (mkManager (ObjectToDeviceMap (mgr w))
          (StdMap.insert_pair stream device (StreamToDeviceMap (mgr w)))
          (MultiMap.insert_pair stream caller (StreamToObjectMap (mgr w))))
       (cudaSetDevice device (cuda w)) (heap w) (errors w)).
Proof.
  intros Hv Hb Hn. unfold GetStream_nolock. rewrite invalid_device_valid by done.
  rewrite not_existsb_stream_owner by done.
  assert (Hguard : negb (stream =? 0)
            && (StdMap.count stream (StreamToDeviceMap (mgr w)) =? 1)
            && negb ((StdMap.index stream (StreamToDeviceMap (mgr w))).2 =? device)
            = false).
  { destruct (Z.eqb_spec stream 0) as [-> | Hs]; [done |]. simpl.
    destruct (StreamToDeviceMap (mgr w) !! stream) as [d |] eqn:Hd.
    - rewrite (count_present _ _ _ Hd), (index_present _ _ _ Hd). simpl.
      by rewrite (Hb Hs d eq_refl), Z.eqb_refl.
    - by rewrite (count_absent _ _ Hd). }
  rewrite Hguard. by destruct (stream =? 0).
Qed.

(** A null handle and a valid device: a new stream is created, bound and
    recorded. *)
Lemma GetStream_creates_stream_nolock (caller device : Z) (w : World) :
  0 ≤ device < (GetNumberOfDevices w).1 →
  (0, caller) ∉ StreamToObjectMap (mgr w) →
  StreamToDeviceMap (mgr w) !! heap w = None →
  let r := GetStream_nolock caller 0 device w in
  r.1 = (false, heap w) ∧
  StreamToDeviceMap (mgr r.2) = <[heap w := device]> (StreamToDeviceMap (mgr w)) ∧
  StreamToObjectMap (mgr r.2) ≡ₚ (heap w, caller) :: StreamToObjectMap (mgr w) ∧
  ObjectToDeviceMap (mgr r.2) = ObjectToDeviceMap (mgr w) ∧
  active (cuda r.2) = device ∧
  calls (cuda r.2) = calls (cuda w) ++ [SetDevice device; StreamCreate (heap w)] ∧
  errors r.2 = errors w.
Proof.
  intros Hv Hn Hfresh r. subst r.
  rewrite GetStream_inserts by done. simpl.
  unfold StdMap.insert_pair. rewrite Hfresh.
  split_and!; try done.
  - apply insert_pair_perm.
  - by rewrite <- app_assoc.
Qed.

(** A handle that is unbound or bound to the requested device is adopted
    for a further caller. *)
Lemma GetStream_shares_stream_nolock (caller stream device : Z) (w : World) :
  stream ≠ 0 →
  0 ≤ device < (GetNumberOfDevices w).1 →
  (∀ d, StreamToDeviceMap (mgr w) !! stream = Some d → d = device) →
  (stream, caller) ∉ StreamToObjectMap (mgr w) →
  let r := GetStream_nolock caller stream device w in
  r.1 = (false, stream) ∧
  StreamToDeviceMap (mgr r.2) !! stream = Some device ∧
  (∀ s, s ≠ stream →
     StreamToDeviceMap (mgr r.2) !! s = StreamToDeviceMap (mgr w) !! s) ∧
  StreamToObjectMap (mgr r.2) ≡ₚ (stream, caller) :: StreamToObjectMap (mgr w) ∧
  ObjectToDeviceMap (mgr r.2) = ObjectToDeviceMap (mgr w) ∧
  calls (cuda r.2) = calls (cuda w) ++ [SetDevice device] ∧
  heap r.2 = heap w ∧ errors r.2 = errors w.
Proof.
  intros Hs Hv Hb Hn r. subst r.
  rewrite GetStream_inserts by auto.
  destruct (Z.eqb_spec stream 0); [done |]. simpl.
  unfold StdMap.insert_pair.
  split_and!; try done.
  - destruct (StreamToDeviceMap (mgr w) !! stream) as [d |] eqn:Hd.
    + by rewrite Hd, (Hb d eq_refl).
    + by rewrite lookup_insert_eq.
  - intros s Hne. destruct (StreamToDeviceMap (mgr w) !! stream); [done |].
    by rewrite lookup_insert_ne.
  - apply insert_pair_perm.
Qed.

(** ** [GetStream_nolock] and [ReturnStream_nolock] together *)

Lemma insert_pair_delete (k v : Z) (m : list (Z * Z)) :
  ∀ it,
    (k, v) ∉ m →
    MultiMap.insert_pair k v m !! it = Some (k, v) →
    delete it (MultiMap.insert_pair k v m) = m.
Proof.
  induction m as [| e r IH]; intros it Hn Hit; simpl in *.
  - destruct it; [done | by destruct it].
  - apply not_elem_of_cons in Hn as [Hne Hn].
    destruct (k <? e.1).
    + destruct it as [| j]; [done |]. simpl in Hit.
      assert ((k, v) ∈ e :: r) as [Heq | Hin]%elem_of_cons
        by (eapply list_elem_of_lookup_2; exact Hit); [congruence | done].
    + destruct it as [| j]; [simpl in Hit; congruence |].
      simpl. f_equal. by apply IH.
Qed.

Lemma elem_of_delete_other (x y : Z * Z) (it : nat) (l : list (Z * Z)) :
  x ∈ l → l !! it = Some y → x ≠ y → x ∈ delete it l.
Proof.
  intros Hin Hit Hne. rewrite (delete_Permutation l it y Hit) in Hin.
  apply elem_of_cons in Hin as [-> | Hin]; done.
Qed.

Lemma ReturnStream_releases (caller stream device : Z) (w : World) :
  (stream, caller) ∈ StreamToObjectMap (mgr w) →
  StreamToDeviceMap (mgr w) !! stream = Some device →
  ∃ so',
    StreamToObjectMap (mgr w) ≡ₚ (stream, caller) :: so' ∧
    ReturnStream_nolock caller stream device w =
    (false,
     mkWorld
       (mkManager (ObjectToDeviceMap (mgr w))
          (if MultiMap.count stream so' =? 0
           then delete stream (StreamToDeviceMap (mgr w))
           else StreamToDeviceMap (mgr w))
          so')
       (cuda w) (heap w) (errors w)).
Proof.
  intros Hin Hb.
  destruct (ReturnStream_found caller stream device w Hin Hb) as (it & Hit & ->).
  eexists. split; [| done]. by apply delete_Permutation.
Qed.

Lemma count_zero_false (stream o : Z) (so : list (Z * Z)) :
  (stream, o) ∈ so → (MultiMap.count stream so =? 0) = false.
Proof.
  intros Hin. destruct (MultiMap.count stream so =? 0) eqn:Hc; [| done].
  rewrite count_zero in Hc. by apply Hc in Hin.
Qed.

Lemma count_zero_perm (stream : Z) (so so' : list (Z * Z)) :
  so ≡ₚ so' → MultiMap.count stream so = MultiMap.count stream so'.
Proof. intros Hp. unfold MultiMap.count. by rewrite Hp. Qed.

(** Creating a stream and returning it puts the containers back. *)
Lemma GetStream_ReturnStream_round_trip_nolock (caller device : Z) (w : World) :
  0 ≤ device < (GetNumberOfDevices w).1 →
  (0, caller) ∉ StreamToObjectMap (mgr w) →
  StreamToDeviceMap (mgr w) !! heap w = None →
  (∀ o, (heap w, o) ∉ StreamToObjectMap (mgr w)) →
  let g := GetStream_nolock caller 0 device w in
  let r := ReturnStream_nolock caller g.1.2 device g.2 in
  g.1.1 = false ∧ r.1 = false ∧
  mgr r.2 = mgr w ∧
  cuda r.2 = cuda g.2 ∧ errors r.2 = errors w.
Proof.
  intros Hv Hnull Hfresh Hnone g r. subst g r.
  rewrite GetStream_inserts by done. cbn [Z.eqb fst snd].
  set (so1 := MultiMap.insert_pair (heap w) caller (StreamToObjectMap (mgr w))).
  set (sd1 := StdMap.insert_pair (heap w) device (StreamToDeviceMap (mgr w))).
  set (w1 := mkWorld _ _ _ _).
  assert (Hsd1 : sd1 = <[heap w := device]> (StreamToDeviceMap (mgr w))).
  { unfold sd1, StdMap.insert_pair. by rewrite Hfresh. }
  assert (Hin : (heap w, caller) ∈ StreamToObjectMap (mgr w1)).
  { simpl. unfold so1. rewrite insert_pair_perm. apply elem_of_cons. by left. }
  assert (Hb : StreamToDeviceMap (mgr w1) !! heap w = Some device).
  { simpl. by rewrite Hsd1, lookup_insert_eq. }
  destruct (ReturnStream_found caller (heap w) device w1 Hin Hb) as (it & Hit & ->).
  simpl in Hit. simpl.
  unfold so1 in *. rewrite insert_pair_delete by done.
  rewrite (proj2 (count_zero (heap w) _) Hnone).
  rewrite Hsd1, delete_insert_id by done.
  split_and!; try done. by destruct (mgr w).
Qed.

(** A shared stream keeps its binding until its last user returns it. *)
Lemma shared_stream_released_by_last_user_nolock (A B device : Z) (w : World) :
  A ≠ B →
  0 ≤ device < (GetNumberOfDevices w).1 →
  heap w ≠ 0 →
  (0, A) ∉ StreamToObjectMap (mgr w) →
  StreamToDeviceMap (mgr w) !! heap w = None →
  (∀ o, (heap w, o) ∉ StreamToObjectMap (mgr w)) →
  let s := heap w in
  let gA := GetStream_nolock A 0 device w in
  let gB := GetStream_nolock B s device gA.2 in
  let rA := ReturnStream_nolock A s device gB.2 in
  let rB := ReturnStream_nolock B s device rA.2 in
  gA.1 = (false, s) ∧ gB.1 = (false, s) ∧
  rA.1 = false ∧
  StreamToDeviceMap (mgr rA.2) !! s = Some device ∧
  (s, B) ∈ StreamToObjectMap (mgr rA.2) ∧
  rB.1 = false ∧
  StreamToDeviceMap (mgr rB.2) = StreamToDeviceMap (mgr w) ∧
  StreamToObjectMap (mgr rB.2) ≡ₚ StreamToObjectMap (mgr w) ∧
  (SynchronizeStream_nolock s rB.2).1 = true.
Proof.
  intros Hne Hv Hnz HnullA Hfresh Hnone s gA gB rA rB.
  pose proof (GetStream_creates_stream_nolock A device w Hv HnullA Hfresh)
    as (HgA1 & HsdA & HsoA & _).
  fold gA in HgA1, HsdA, HsoA. fold s in HgA1, HsdA, HsoA.
  assert (HvA : 0 ≤ device < (GetNumberOfDevices gA.2).1).
  { unfold gA. rewrite GetStream_inserts by done. cbn [Z.eqb snd].
    unfold GetNumberOfDevices in *. simpl.
    by destruct (negb (count_status (cuda w) =? 0)). }
  assert (HbA : StreamToDeviceMap (mgr gA.2) !! s = Some device)
    by (by rewrite HsdA, lookup_insert_eq).
  assert (HnB : (s, B) ∉ StreamToObjectMap (mgr gA.2)).
  { rewrite HsoA. intros [[=] | Hin]%elem_of_cons; [done | by apply Hnone in Hin]. }
  pose proof (GetStream_shares_stream_nolock B s device gA.2 Hnz HvA) as HgB.
  destruct HgB as (HgB1 & HsdB & HsdB' & HsoB & _); [congruence | done |].
  fold gB in HgB1, HsdB, HsdB', HsoB.
  assert (HinA : (s, A) ∈ StreamToObjectMap (mgr gB.2)).
  { rewrite HsoB, HsoA, !elem_of_cons. auto. }
  destruct (ReturnStream_releases A s device gB.2 HinA HsdB)
    as (so3 & Hso3 & HrA).
  fold rA in HrA.
  assert (Hperm3 : so3 ≡ₚ (s, B) :: StreamToObjectMap (mgr w)).
  { apply (Permutation_cons_inv (a := (s, A))).
    rewrite <- Hso3, HsoB, HsoA. apply Permutation_swap. }
  assert (HinB3 : (s, B) ∈ so3) by (rewrite Hperm3; apply elem_of_cons; by left).
  rewrite (count_zero_false s B so3 HinB3) in HrA.
  assert (HinB : (s, B) ∈ StreamToObjectMap (mgr rA.2)) by (by rewrite HrA).
  assert (HbB : StreamToDeviceMap (mgr rA.2) !! s = Some device)
    by (by rewrite HrA).
  destruct (ReturnStream_releases B s device rA.2 HinB HbB)
    as (so4 & Hso4 & HrB).
  fold rB in HrB.
  assert (Hperm4 : so4 ≡ₚ StreamToObjectMap (mgr w)).
  { apply (Permutation_cons_inv (a := (s, B))).
    rewrite <- Hso4, HrA. simpl. done. }
  rewrite (count_zero_perm s so4 _ Hperm4),
    (proj2 (count_zero s _) Hnone) in HrB.
  assert (Hsd4 : StreamToDeviceMap (mgr rB.2) = StreamToDeviceMap (mgr w)).
  { rewrite HrB, HrA. simpl.
    assert (Hsame : StreamToDeviceMap (mgr gB.2) = StreamToDeviceMap (mgr gA.2)).
    { apply map_eq. intros k. destruct (decide (k = s)) as [-> | Hk].
      - by rewrite HsdB, HbA.
      - by apply HsdB'. }
    rewrite Hsame, HsdA. by apply delete_insert_id. }
  split_and!; try done.
  - by rewrite HrA.
  - by rewrite HrB.
  - by rewrite HrB.
  - rewrite SynchronizeStream_unbound; [done |]. by rewrite Hsd4.
Qed.

(** ** Queries after acquisitions *)

Lemma GetStream_invalid (caller stream device : Z) (w : World) :
  device < 0 ∨ (GetNumberOfDevices w).1 ≤ device →
  GetStream_nolock caller stream device w =
  (true, stream, vtkErrorMacro msg_invalid_device (invalid_device device w).2).
Proof.
  intros Hv. unfold GetStream_nolock.
  destruct (invalid_device_invalid device w Hv) as (Hi & _).
  destruct (invalid_device device w) as [b w1]. simpl in Hi. by subst b.
Qed.

Lemma QueryDeviceForStream_bound (stream device : Z) (w : World) :
  StreamToDeviceMap (mgr w) !! stream = Some device →
  QueryDeviceForStream_nolock stream w = (device, w).
Proof.
  intros Hb. unfold QueryDeviceForStream_nolock.
  rewrite (count_present _ _ _ Hb), (index_present _ _ _ Hb). simpl.
  by rewrite with_StreamToDeviceMap_id.
Qed.

(** The stream a successful [GetStream_nolock] hands back is bound to the
    requested device. *)
Lemma GetStream_then_QueryDeviceForStream_nolock
    (caller stream device s : Z) (w w' : World) :
  owned_streams_bound w →
  (∀ o, (0, o) ∉ StreamToObjectMap (mgr w)) →
  StreamToDeviceMap (mgr w) !! heap w = None →
  GetStream_nolock caller stream device w = (false, s, w') →
  QueryDeviceForStream_nolock s w' = (device, w').
Proof.
  intros Hinv Hnull Hfresh Hg.
  destruct (decide (0 ≤ device < (GetNumberOfDevices w).1)) as [Hv | Hv];
    [| rewrite GetStream_invalid in Hg by lia; congruence].
  destruct (decide ((stream, caller) ∈ StreamToObjectMap (mgr w))) as [Hin | Hn].
  - assert (Hs : stream ≠ 0) by (intros ->; by apply Hnull in Hin).
    destruct (Hinv _ _ Hin) as [d0 Hd0].
    destruct (decide (device = d0)) as [-> | Hne];
      [| rewrite (GetStream_mismatch caller stream d0 device) in Hg by done;
         congruence].
    rewrite GetStream_idempotent_nolock in Hg by (done || congruence).
    injection Hg as <- <-. by apply QueryDeviceForStream_bound.
  - destruct (decide (stream = 0)) as [-> | Hs].
    + rewrite GetStream_inserts in Hg by done. cbn [Z.eqb] in Hg.
      injection Hg as <- <-. apply QueryDeviceForStream_bound. simpl.
      unfold StdMap.insert_pair. by rewrite Hfresh, lookup_insert_eq.
    + destruct (StreamToDeviceMap (mgr w) !! stream) as [d0 |] eqn:Hd0.
      * destruct (decide (device = d0)) as [-> | Hne];
          [| rewrite (GetStream_mismatch caller stream d0 device) in Hg by done;
             congruence].
        rewrite GetStream_inserts in Hg by (done || congruence).
        destruct (Z.eqb_spec stream 0); [done |].
        injection Hg as <- <-. apply QueryDeviceForStream_bound. simpl.
        unfold StdMap.insert_pair. by rewrite Hd0.
      * rewrite GetStream_inserts in Hg by (done || congruence).
        destruct (Z.eqb_spec stream 0); [done |].
        injection Hg as <- <-. apply QueryDeviceForStream_bound. simpl.
        unfold StdMap.insert_pair. by rewrite Hd0, lookup_insert_eq.
Qed.

Lemma filter_key_nil (k : Z) (m : list (Z * Z)) :
  (∀ v, (k, v) ∉ m) → filter (λ e : Z * Z, e.1 = k) m = [].
Proof.
  intros Hn. destruct (filter _ m) as [| [a b] f] eqn:Hf; [done |].
  assert (Hin : (a, b) ∈ filter (λ e : Z * Z, e.1 = k) m)
    by (rewrite Hf; apply elem_of_cons; by left).
  apply list_elem_of_filter in Hin as [Ha Hin]. simpl in Ha. subst a.
  by apply Hn in Hin.
Qed.

(** [QueryDeviceForObject_nolock] after [GetDevice_nolock], for an object
    that held nothing and for one that held an entry. *)
Lemma QueryDeviceForObject_after_GetDevice_nolock (caller device : Z) (w : World) :
  0 ≤ device < (GetNumberOfDevices w).1 →
  let w1 := (GetDevice_nolock caller device w).2 in
  ((∀ d, (caller, d) ∉ ObjectToDeviceMap (mgr w)) →
     QueryDeviceForObject_nolock caller w1 = (device, w1)) ∧
  ((∃ d, (caller, d) ∈ ObjectToDeviceMap (mgr w)) →
     QueryDeviceForObject_nolock caller w1 =
     (-1, vtkErrorMacro msg_no_unique_mapping w1)).
Proof.
  intros Hv w1. subst w1. rewrite GetDevice_valid by done. cbn [snd].
  unfold QueryDeviceForObject_nolock, MultiMap.count, MultiMap.find.
  cbn [with_ObjectToDeviceMap with_mgr mgr ObjectToDeviceMap].
  assert (Hp : filter (λ e : Z * Z, e.1 = caller)
                 (MultiMap.insert_pair caller device (ObjectToDeviceMap (mgr w)))
               ≡ₚ (caller, device) ::
                  filter (λ e : Z * Z, e.1 = caller) (ObjectToDeviceMap (mgr w))).
  { rewrite insert_pair_perm. by rewrite filter_cons_True. }
  split.
  - intros Hnone. rewrite (filter_key_nil caller _ Hnone) in Hp.
    apply Permutation_singleton_r in Hp. by rewrite Hp.
  - intros [d Hd].
    assert (Hlen : (2 ≤ length (filter (λ e : Z * Z, e.1 = caller)
              (MultiMap.insert_pair caller device (ObjectToDeviceMap (mgr w)))))%nat).
    { rewrite Hp. simpl.
      assert (Hin : (caller, d) ∈ filter (λ e : Z * Z, e.1 = caller)
                      (ObjectToDeviceMap (mgr w)))
        by (by apply list_elem_of_filter).
      destruct (filter _ (ObjectToDeviceMap (mgr w)));
        [by apply elem_of_nil in Hin | simpl; lia]. }
    destruct (Z.eqb_spec (Z.of_nat (length (filter (λ e : Z * Z, e.1 = caller)
      (MultiMap.insert_pair caller device (ObjectToDeviceMap (mgr w)))))) 1);
      [lia | done].
Qed.

(** ** [ReturnDevice_nolock]: failure, success, and the round trip *)

Lemma other_holder_perm (caller device : Z) (l l' : list (Z * Z)) :
  l ≡ₚ l' → other_holder caller device l = other_holder caller device l'.
Proof.
  intros Hp.
  destruct (other_holder caller device l) eqn:H1,
           (other_holder caller device l') eqn:H2; try done.
  - rewrite other_holder_false in H2.
    assert (other_holder caller device l = false); [| congruence].
    apply other_holder_false. intros o Ho. apply H2. by rewrite <- Hp.
  - rewrite other_holder_false in H1.
    assert (other_holder caller device l' = false); [| congruence].
    apply other_holder_false. intros o Ho. apply H1. by rewrite Hp.
Qed.

Lemma other_holder_own (caller device : Z) (l : list (Z * Z)) :
  other_holder caller device ((caller, device) :: l) =
  other_holder caller device l.
Proof. unfold other_holder. simpl. by rewrite Z.eqb_refl. Qed.

(** What [ReturnDevice_nolock] does when the pair is not recorded, and when
    it is. *)
Lemma ReturnDevice_spec_nolock (caller device : Z) (w : World) :
  let od := ObjectToDeviceMap (mgr w) in
  let r := ReturnDevice_nolock caller device w in
  (r.1 = false ↔ (caller, device) ∈ od) ∧
  ((caller, device) ∉ od →
     errors r.2 = errors w ++ [msg_pair_not_found] ∧
     mgr r.2 = mgr w ∧ cuda r.2 = cuda w) ∧
  ((caller, device) ∈ od →
     od ≡ₚ (caller, device) :: ObjectToDeviceMap (mgr r.2) ∧
     active (cuda r.2) = active (cuda w) ∧
     errors r.2 = errors w ∧ heap r.2 = heap w).
Proof.
  intros od r. subst od r. split_and!.
  - destruct (decide ((caller, device) ∈ ObjectToDeviceMap (mgr w))) as [Hin | Hn].
    + destruct (ReturnDevice_found caller device w Hin) as (it & sd & _ & ->).
      done.
    + rewrite ReturnDevice_not_found by done. simpl. split; [done | tauto].
  - intros Hn. by rewrite ReturnDevice_not_found.
  - intros Hin.
    destruct (ReturnDevice_found caller device w Hin) as (it & sd & Hit & ->).
    cbn [snd mgr cuda errors heap ObjectToDeviceMap].
    split_and!; try done.
    + by apply delete_Permutation.
    + destruct (other_holder _ _ _); [done | apply reset_block_active].
Qed.

(** Acquiring a valid device and returning it puts [ObjectToDeviceMap]
    back. *)
Lemma GetDevice_ReturnDevice_round_trip_nolock (caller device : Z) (w : World) :
  0 ≤ device < (GetNumberOfDevices w).1 →
  let g := GetDevice_nolock caller device w in
  let r := ReturnDevice_nolock caller device g.2 in
  g.1 = false ∧ r.1 = false ∧
  ObjectToDeviceMap (mgr r.2) ≡ₚ ObjectToDeviceMap (mgr w) ∧
  StreamToObjectMap (mgr r.2) = StreamToObjectMap (mgr w) ∧
  active (cuda r.2) = active (cuda w) ∧
  errors r.2 = errors w ∧
  resets device r.2 =
    (resets device w +
     if other_holder caller device (ObjectToDeviceMap (mgr w)) then 0 else 1)%nat.
Proof.
  intros Hv g r. subst g r. rewrite GetDevice_valid by done. cbn [fst snd].
  set (w1 := with_ObjectToDeviceMap _ w).
  assert (Hin : (caller, device) ∈ ObjectToDeviceMap (mgr w1)).
  { simpl. rewrite insert_pair_perm. apply elem_of_cons. by left. }
  pose proof (ReturnDevice_resets caller device w1 Hin) as Hres.
  destruct (ReturnDevice_found caller device w1 Hin) as (it & sd & Hit & Hr).
  assert (Hoh : other_holder caller device (ObjectToDeviceMap (mgr w1)) =
                other_holder caller device (ObjectToDeviceMap (mgr w))).
  { simpl. rewrite (other_holder_perm _ _ _ _ (insert_pair_perm _ _ _)).
    apply other_holder_own. }
  rewrite Hoh in Hres.
  split_and!; [done | by rewrite Hr | | by rewrite Hr | | by rewrite Hr |
               exact Hres].
  - rewrite Hr. cbn [snd mgr ObjectToDeviceMap].
    apply (Permutation_cons_inv (a := (caller, device))).
    rewrite <- delete_Permutation by done. simpl. apply insert_pair_perm.
  - rewrite Hr. cbn [snd cuda].
    destruct (other_holder _ _ (ObjectToDeviceMap (mgr w1)));
      [done | apply reset_block_active].
Qed.

(** ** What a call can do to bindings, devices and the runtime log *)

Lemma invalid_device_cuda (device : Z) (w : World) :
  cuda (invalid_device device w).2 = cuda w.
Proof.
  unfold invalid_device, GetNumberOfDevices.
  destruct (device <? 0); [done |].
  by destruct (negb (count_status (cuda w) =? 0)).
Qed.

Lemma index_lookup_Some (k s d : Z) (sd : gmap Z Z) :
  sd !! s = Some d → (StdMap.index k sd).1 !! s = Some d.
Proof.
  intros Hs. unfold StdMap.index. destruct (sd !! k) eqn:Hk; [done |].
  simpl. rewrite lookup_insert_ne; [done | congruence].
Qed.

Lemma collect_streams_lookup_Some (device s d : Z) (l : list (Z * Z)) :
  ∀ sd X, sd !! s = Some d → (collect_streams device l sd X).1 !! s = Some d.
Proof.
  induction l as [| e l IH]; intros sd X Hs; simpl; [done |].
  pose proof (index_lookup_Some e.1 s d sd Hs) as Hs'.
  destruct (StdMap.index e.1 sd) as [sd' d']. destruct (d' =? device); by apply IH.
Qed.

Lemma find_triple_lookup_Some (caller stream device s d : Z) (l : list (Z * Z)) :
  ∀ it sd,
    sd !! s = Some d →
    (find_triple caller stream device l it sd).2 !! s = Some d.
Proof.
  induction l as [| e l IH]; intros it sd Hs; simpl; [done |].
  destruct ((e.1 =? stream) && (e.2 =? caller)); [| by apply IH].
  pose proof (index_lookup_Some e.1 s d sd Hs) as Hs'.
  destruct (StdMap.index e.1 sd) as [sd' d']. destruct (d' =? device); [done |].
  by apply IH.
Qed.

Lemma insert_pair_lookup_Some (k v s d : Z) (sd : gmap Z Z) :
  sd !! s = Some d → StdMap.insert_pair k v sd !! s = Some d.
Proof.
  intros Hs. unfold StdMap.insert_pair. destruct (sd !! k) eqn:Hk; [done |].
  rewrite lookup_insert_ne; [done | congruence].
Qed.

Lemma reset_block_calls (device : Z) (rt : Runtime) :
  calls (reset_block device rt) =
  calls rt ++
  (if device =? active rt then [DeviceReset device]
   else [SetDevice device; DeviceReset device; SetDevice (active rt)]).
Proof.
  unfold reset_block, cudaGetDevice.
  destruct (Z.eqb_spec device (active rt)) as [-> | Hne]; simpl; [done |].
  by rewrite <- !app_assoc.
Qed.

Lemma ReturnDevice_shape (caller device : Z) (w : World) :
  let r := ReturnDevice_nolock caller device w in
  StreamToObjectMap (mgr r.2) = StreamToObjectMap (mgr w) ∧
  (∀ s d, StreamToDeviceMap (mgr w) !! s = Some d →
          StreamToDeviceMap (mgr r.2) !! s = Some d) ∧
  (cuda r.2 = cuda w ∨
   (caller, device) ∈ ObjectToDeviceMap (mgr w) ∧
   cuda r.2 = reset_block device (cuda w)).
Proof.
  intros r. subst r.
  destruct (decide ((caller, device) ∈ ObjectToDeviceMap (mgr w))) as [Hin | Hn];
    [| rewrite ReturnDevice_not_found by done; split_and!; auto].
  unfold ReturnDevice_nolock.
  destruct (scan_devices _ _ _ _ _) as [[f e] emp].
  destruct (negb f); [split_and!; auto |].
  pose proof (collect_streams_set device (StreamToObjectMap (mgr w))
                (StreamToDeviceMap (mgr w)) ∅) as HX.
  pose proof (λ s d, collect_streams_lookup_Some device s d
                (StreamToObjectMap (mgr w)) (StreamToDeviceMap (mgr w)) ∅) as Hsd.
  destruct (collect_streams _ _ _ _) as [sd X]. simpl in HX, Hsd. subst X.
  rewrite entries_empty. simpl foldl.
  destruct emp; simpl; split_and!; auto.
Qed.

Lemma ReturnStream_shape (caller stream device : Z) (w : World) :
  let r := ReturnStream_nolock caller stream device w in
  ObjectToDeviceMap (mgr r.2) = ObjectToDeviceMap (mgr w) ∧
  cuda r.2 = cuda w ∧
  ∀ s d, StreamToDeviceMap (mgr w) !! s = Some d →
         StreamToDeviceMap (mgr r.2) !! s = Some d ∨
         StreamToDeviceMap (mgr r.2) !! s = None.
Proof.
  intros r. subst r. unfold ReturnStream_nolock.
  pose proof (λ s d, find_triple_lookup_Some caller stream device s d
                (StreamToObjectMap (mgr w)) 0 (StreamToDeviceMap (mgr w))) as Hsd.
  destruct (find_triple _ _ _ _ _ _) as [[it |] sd]; simpl in Hsd.
  - destruct (MultiMap.count stream _ =? 0); simpl; split_and!; auto.
    intros s d Hs. unfold StdMap.erase.
    destruct (decide (s = stream)) as [-> | Hne].
    + right. apply lookup_delete_eq.
    + left. rewrite lookup_delete_ne by done. by apply Hsd.
  - simpl. split_and!; auto.
Qed.

Lemma GetStream_shape (caller stream device : Z) (w : World) :
  let r := GetStream_nolock caller stream device w in
  ObjectToDeviceMap (mgr r.2) = ObjectToDeviceMap (mgr w) ∧
  (∀ s d, StreamToDeviceMap (mgr w) !! s = Some d →
          StreamToDeviceMap (mgr r.2) !! s = Some d) ∧
  ∃ ext, calls (cuda r.2) = calls (cuda w) ++ ext ∧ Forall harmless ext.
Proof.
  intros r. subst r. unfold GetStream_nolock.
  pose proof (invalid_device_mgr device w) as Hm.
  pose proof (invalid_device_cuda device w) as Hc.
  destruct (invalid_device device w) as [[] w1]; simpl in Hm, Hc.
  { simpl. rewrite Hm, Hc. split_and!; auto.
    exists []. by rewrite app_nil_r. }
  destruct (_ && _ && _).
  { simpl. rewrite Hm, Hc. split_and!; auto.
    exists []. by rewrite app_nil_r. }
  destruct (existsb _ _).
  { simpl. rewrite Hm, Hc. split_and!; auto.
    exists []. by rewrite app_nil_r. }
  destruct (stream =? 0); simpl; rewrite Hm, Hc; split_and!; auto.
  - intros s d Hs. by apply insert_pair_lookup_Some.
  - eexists. rewrite <- app_assoc. split; [done |]. by repeat constructor.
  - intros s d Hs. by apply insert_pair_lookup_Some.
  - eexists. split; [done |]. by repeat constructor.
Qed.

Lemma SynchronizeStream_calls (stream : Z) (w : World) :
  ∃ ext, calls (cuda (SynchronizeStream_nolock stream w).2) = calls (cuda w) ++ ext ∧
         Forall harmless ext.
Proof.
  destruct (StreamToDeviceMap (mgr w) !! stream) as [d |] eqn:Hb.
  - rewrite (SynchronizeStream_bound _ _ _ Hb). simpl snd. simpl cuda.
    rewrite synchronized_calls. eexists. split; [done |]. by repeat constructor.
  - rewrite SynchronizeStream_unbound by done.
    exists []. by rewrite app_nil_r.
Qed.

Lemma ReserveGPU_calls (stream : Z) (w : World) :
  ∃ ext, calls (cuda (ReserveGPU_nolock stream w).2) = calls (cuda w) ++ ext ∧
         Forall harmless ext.
Proof.
  destruct (StreamToDeviceMap (mgr w) !! stream) as [d |] eqn:Hb.
  - rewrite (ReserveGPU_bound _ _ _ Hb). simpl.
    eexists. split; [done |]. by repeat constructor.
  - rewrite ReserveGPU_unbound by done.
    exists []. by rewrite app_nil_r.
Qed.

Lemma QueryDeviceForObject_eq (object : Z) (w : World) :
  mgr (QueryDeviceForObject_nolock object w).2 = mgr w ∧
  cuda (QueryDeviceForObject_nolock object w).2 = cuda w.
Proof. unfold QueryDeviceForObject_nolock. by destruct (_ =? 1). Qed.

Lemma QueryDeviceForStream_eq (stream : Z) (w : World) :
  mgr (QueryDeviceForStream_nolock stream w).2 = mgr w ∧
  cuda (QueryDeviceForStream_nolock stream w).2 = cuda w.
Proof.
  destruct (StreamToDeviceMap (mgr w) !! stream) as [d |] eqn:Hb.
  - by rewrite (QueryDeviceForStream_bound _ _ _ Hb).
  - unfold QueryDeviceForStream_nolock. by rewrite (count_absent _ _ Hb).
Qed.

Lemma DestroyEmptyStream_shape (stream : Z) (w : World) :
  let w' := DestroyEmptyStream_nolock stream w in
  ObjectToDeviceMap (mgr w') = ObjectToDeviceMap (mgr w) ∧
  StreamToObjectMap (mgr w') = StreamToObjectMap (mgr w) ∧
  (∀ s d, StreamToDeviceMap (mgr w) !! s = Some d →
          StreamToDeviceMap (mgr w') !! s = Some d ∨
          StreamToDeviceMap (mgr w') !! s = None) ∧
  ∃ ext, calls (cuda w') = calls (cuda w) ++ ext ∧ Forall harmless ext.
Proof.
  intros w'. subst w'. unfold DestroyEmptyStream_nolock.
  pose proof (SynchronizeStream_mgr stream w) as Hm.
  pose proof (SynchronizeStream_calls stream w) as Hc.
  destruct (SynchronizeStream_nolock stream w) as [b w1]. simpl in Hm, Hc.
  cbn [snd]. rewrite Hm.
  destruct (StreamToDeviceMap (mgr w) !! stream) eqn:Hb; simpl; rewrite ?Hm.
  - split_and!; [done | done | | done].
    intros s d Hs. unfold StdMap.erase.
    destruct (decide (s = stream)) as [-> | Hne].
    + right. apply lookup_delete_eq.
    + left. by rewrite lookup_delete_ne.
  - split_and!; auto.
Qed.

Lemma harmless_not_destroy (ext : list cuda_call) (s : Z) :
  Forall harmless ext → StreamDestroy s ∉ ext.
Proof. intros Hf Hin. rewrite Forall_forall in Hf. by apply Hf in Hin. Qed.

Lemma harmless_not_reset (ext : list cuda_call) (d : Z) :
  Forall harmless ext → DeviceReset d ∉ ext.
Proof. intros Hf Hin. rewrite Forall_forall in Hf. by apply Hf in Hin. Qed.

Lemma GetDevice_cuda (caller device : Z) (w : World) :
  cuda (GetDevice_nolock caller device w).2 = cuda w.
Proof.
  unfold GetDevice_nolock. pose proof (invalid_device_cuda device w) as Hc.
  by destruct (invalid_device device w) as [[] w1].
Qed.

(** ** Device counting *)

(** When the devices cannot be counted every acquisition fails. *)
Lemma no_acquisition_without_device_count_nolock
    (caller stream device : Z) (w : World) :
  count_status (cuda w) ≠ 0 →
  let g := GetDevice_nolock caller device w in
  let s := GetStream_nolock caller stream device w in
  GetNumberOfDevices w = (-1, vtkErrorMacro msg_count w) ∧
  g.1 = true ∧ last (errors g.2) = Some msg_invalid_device ∧
  mgr g.2 = mgr w ∧ cuda g.2 = cuda w ∧
  s.1 = (true, stream) ∧ last (errors s.2) = Some msg_invalid_device ∧
  mgr s.2 = mgr w ∧ cuda s.2 = cuda w.
Proof.
  intros Hst g s. subst g s.
  assert (Hn : GetNumberOfDevices w = (-1, vtkErrorMacro msg_count w)).
  { unfold GetNumberOfDevices. by destruct (Z.eqb_spec (count_status (cuda w)) 0). }
  assert (Hv : device < 0 ∨ (GetNumberOfDevices w).1 ≤ device)
    by (rewrite Hn; simpl; lia).
  destruct (invalid_device_invalid device w Hv) as (_ & Hm & Hc).
  rewrite GetDevice_invalid, GetStream_invalid by done.
  cbn [fst snd vtkErrorMacro errors mgr cuda]. rewrite !last_snoc. done.
Qed.

(** * The methods and the lock *)

Ltac run_method :=
  unfold mbind, Method_bind, mret, Method_ret, get, modify, runtime, lift,
    device_error, vtkMutexLock.Lock, vtkMutexLock.Unlock, vtkMutexLock.New,
    vtkMutexLock.UnRegister, vtkMutexLock.Delete;
  cbn [world regularLock].

Lemma locking_Returns {A : Type} (l : LockState) (o : Outcome A) a p :
  locking l o = Returns a p → l = Free ∧ o = Returns a p.
Proof. by destruct l. Qed.

Lemma GetDevice_outcome (caller device : Z) (p : Process) :
  GetDevice caller device p =
  let r := GetDevice_nolock caller device (world p) in
  if r.1 then Returns true (mkProcess r.2 (regularLock p))
  else
    locking
      (match ObjectToDeviceMap (mgr (world p)) with
       | [] => Free
       | _ => regularLock p
       end)
      (Returns false (mkProcess r.2 Free)).
Proof.
  destruct p as [w l]. unfold GetDevice, GetDevice_nolock. run_method.
  pose proof (invalid_device_mgr device w) as Hm.
  destruct (invalid_device device w) as [[] w1]; run_method; [done |].
  cbn [snd fst] in *. rewrite <- Hm.
  destruct (ObjectToDeviceMap (mgr w1)) eqn:Hod; run_method; [by rewrite Hod |].
  destruct l; run_method; by rewrite ?Hod.
Qed.

Lemma ReturnStream_outcome (caller stream device : Z) (p : Process) :
  ReturnStream caller stream device p =
  locking (regularLock p)
    (let r := ReturnStream_nolock caller stream device (world p) in
     Returns r.1 (mkProcess r.2 Free)).
Proof.
  destruct p as [w l]. unfold ReturnStream, ReturnStream_nolock.
  destruct l; run_method; try done.
  destruct (find_triple _ _ _ _ _ _) as [[it |] sd]; run_method; [| done].
  cbn [with_StreamToObjectMap with_StreamToDeviceMap with_mgr mgr StreamToObjectMap].
  by destruct (MultiMap.count stream _ =? 0).
Qed.

Lemma ReturnDevice_outcome (caller device : Z) (p : Process) :
  ReturnDevice caller device p =
  locking (regularLock p)
    (let r := ReturnDevice_nolock caller device (world p) in
     Returns r.1
       (mkProcess r.2
          (if r.1 then Free
           else match ObjectToDeviceMap (mgr r.2) with
                | [] => Deleted
                | _ => Free
                end))).
Proof.
  destruct p as [w l]. unfold ReturnDevice, ReturnDevice_nolock.
  destruct l; run_method; try done.
  destruct (scan_devices _ _ _ _ _) as [[f e] emp].
  destruct f; run_method; [| done]. cbn [negb].
  pose proof (collect_streams_set device (StreamToObjectMap (mgr w))
                (StreamToDeviceMap (mgr w)) ∅) as HX.
  destruct (collect_streams _ _ _ _) as [sd X]. simpl in HX. subst X.
  rewrite entries_empty. cbn [return_streams foldl]. run_method.
  destruct emp; run_method.
  - cbn [with_ObjectToDeviceMap with_StreamToDeviceMap with_mgr with_cuda mgr
         cuda ObjectToDeviceMap].
    destruct (negb (device =? cudaGetDevice (cuda w))); run_method;
      cbn [with_cuda mgr ObjectToDeviceMap];
      by destruct (MultiMap.erase_at e (ObjectToDeviceMap (mgr w))).
  - cbn [with_ObjectToDeviceMap with_StreamToDeviceMap with_mgr mgr
         ObjectToDeviceMap fst snd].
    by destruct (MultiMap.erase_at e (ObjectToDeviceMap (mgr w))).
Qed.

Lemma GetStream_outcome (caller stream device : Z) (p : Process) :
  GetStream caller stream device p =
  let r := GetStream_nolock caller stream device (world p) in
  if (invalid_device device (world p)).1
  then Returns r.1 (mkProcess r.2 (regularLock p))
  else locking (regularLock p) (Returns r.1 (mkProcess r.2 Free)).
Proof.
  destruct p as [w l]. unfold GetStream, GetStream_nolock. run_method.
  destruct (invalid_device device w) as [[] w1]; run_method; [done |].
  cbn [fst].
  destruct l; run_method; try done.
  destruct (_ && _ && _); run_method; [done |].
  destruct (existsb _ _); run_method; [done |].
  destruct (stream =? 0); run_method; done.
Qed.

Lemma SynchronizeStream_outcome (stream : Z) (p : Process) :
  SynchronizeStream stream p =
  locking (regularLock p)
    (let r := SynchronizeStream_nolock stream (world p) in
     Returns r.1 (mkProcess r.2 Free)).
Proof.
  destruct p as [w l]. unfold SynchronizeStream, SynchronizeStream_nolock.
  destruct l; run_method; try done.
  destruct (negb _); run_method; [done |].
  destruct (StdMap.index _ _) as [sd device]. run_method. done.
Qed.

Lemma ReserveGPU_outcome (stream : Z) (p : Process) :
  ReserveGPU stream p =
  locking (regularLock p)
    (let r := ReserveGPU_nolock stream (world p) in
     Returns r.1 (mkProcess r.2 Free)).
Proof.
  destruct p as [w l]. unfold ReserveGPU, ReserveGPU_nolock.
  destruct l; run_method; try done.
  destruct (negb _); run_method; [done |].
  destruct (StdMap.index _ _) as [sd device]. run_method. done.
Qed.

Lemma QueryDeviceForObject_outcome (object : Z) (p : Process) :
  QueryDeviceForObject object p =
  locking (regularLock p)
    (let r := QueryDeviceForObject_nolock object (world p) in
     Returns r.1 (mkProcess r.2 Free)).
Proof.
  destruct p as [w l]. unfold QueryDeviceForObject, QueryDeviceForObject_nolock.
  destruct l; run_method; try done.
  destruct (_ =? 1); run_method; done.
Qed.

Lemma QueryDeviceForStream_outcome (stream : Z) (p : Process) :
  QueryDeviceForStream stream p =
  locking (regularLock p)
    (let r := QueryDeviceForStream_nolock stream (world p) in
     Returns r.1 (mkProcess r.2 Free)).
Proof.
  destruct p as [w l]. unfold QueryDeviceForStream, QueryDeviceForStream_nolock.
  destruct l; run_method; try done.
  destruct (_ =? 1); run_method; [| done].
  destruct (StdMap.index _ _) as [sd device]. run_method. done.
Qed.

Lemma DestroyEmptyStream_outcome (stream : Z) (p : Process) :
  DestroyEmptyStream stream p =
  locking (regularLock p)
    (Returns tt (mkProcess (DestroyEmptyStream_nolock stream (world p)) Free)).
Proof.
  unfold DestroyEmptyStream, DestroyEmptyStream_nolock.
  unfold mbind at 1, Method_bind at 1. rewrite SynchronizeStream_outcome.
  destruct p as [w l]. destruct l; cbn [locking world regularLock]; try done.
  destruct (SynchronizeStream_nolock stream w) as [b w1]. run_method.
  cbn [fst snd]. by destruct (StreamToDeviceMap (mgr w1) !! stream).
Qed.

Lemma entries_nil (sd : gmap Z Z) : StdMap.entries sd = [] ↔ sd = ∅.
Proof.
  unfold StdMap.entries. split.
  - intros He. apply map_to_list_empty_iff. apply Permutation_nil_r.
    rewrite <- He. by rewrite merge_sort_Permutation.
  - intros ->. by rewrite map_to_list_empty.
Qed.

Lemma destructor_outcome (p : Process) :
  destructor p =
  locking (regularLock p)
    (if decide (StreamToDeviceMap (mgr (world p)) = ∅)
     then Returns tt (mkProcess (with_mgr (mkManager [] ∅ []) (world p)) Deleted)
     else Hangs).
Proof.
  destruct p as [w l]. unfold destructor.
  destruct l; run_method; try done.
  destruct (decide (StreamToDeviceMap (mgr w) = ∅)) as [He | Hne].
  - rewrite (proj2 (entries_nil _) He). cbn [end_streams]. run_method.
    rewrite entries_empty. done.
  - destruct (StdMap.entries (StreamToDeviceMap (mgr w))) as [| e r] eqn:Hl.
    { by apply entries_nil in Hl. }
    cbn [end_streams]. unfold mbind at 1, Method_bind at 1.
    unfold mbind at 1, Method_bind at 1.
    by rewrite SynchronizeStream_outcome.
Qed.

(** With the lock taken, each method returns what it computes without the
    lock, and leaves the lock free; [ReturnDevice] deletes it when it has
    emptied [ObjectToDeviceMap]. *)

Lemma GetDevice_returns (caller device : Z) (p : Process) :
  lock_consistent p →
  GetDevice caller device p =
  let r := GetDevice_nolock caller device (world p) in
  Returns r.1 (mkProcess r.2 (if r.1 then regularLock p else Free)).
Proof.
  intros Hl. rewrite GetDevice_outcome. cbv zeta.
  destruct (GetDevice_nolock caller device (world p)).1; [done |].
  destruct (ObjectToDeviceMap (mgr (world p))) eqn:Hod; [done |].
  rewrite Hl; [done |]. by rewrite Hod.
Qed.

Lemma ReturnDevice_nolock_success (caller device : Z) (w : World) :
  (ReturnDevice_nolock caller device w).1 = false ↔
  (caller, device) ∈ ObjectToDeviceMap (mgr w).
Proof.
  destruct (decide ((caller, device) ∈ ObjectToDeviceMap (mgr w))) as [Hin | Hn].
  - destruct (ReturnDevice_found caller device w Hin) as (it & sd & _ & ->). done.
  - rewrite ReturnDevice_not_found by done. simpl. split; [done | tauto].
Qed.

Lemma GetDevice_nolock_holds (caller device : Z) (w : World) :
  (GetDevice_nolock caller device w).1 = false →
  (caller, device) ∈ ObjectToDeviceMap (mgr (GetDevice_nolock caller device w).2).
Proof.
  unfold GetDevice_nolock. destruct (invalid_device device w) as [[] w1]; [done |].
  intros _. simpl. rewrite insert_pair_perm. apply elem_of_cons. by left.
Qed.

Lemma elem_of_not_nil {A : Type} (x : A) (l : list A) : x ∈ l → l ≠ [].
Proof. intros Hin ->. by apply elem_of_nil in Hin. Qed.

(** * Claims on devices *)

(** C1 (the code departs from the claim).  Object 100 acquires device 0 and a
    new stream on it, then returns the device.  [ReturnDevice] succeeds, yet
    the stream 1000 is still registered for object 100 in [StreamToObjectMap]
    and still bound in [StreamToDeviceMap]: no stream was returned. *)
Theorem ReturnDevice_leaves_streams_registered :
  ∃ p1 p2 p3,
    GetDevice 100 0 (fresh 1) = Returns false p1 ∧
    GetStream 100 0 0 p1 = Returns (false, 1000) p2 ∧
    ReturnDevice 100 0 p2 = Returns false p3 ∧
    ObjectToDeviceMap (mgr (world p3)) = [] ∧
    StreamToObjectMap (mgr (world p3)) = [(1000, 100)] ∧
    StreamToDeviceMap (mgr (world p3)) !! 1000 = Some 0.
Proof. do 3 eexists. split_and!; vm_compute; reflexivity. Qed.

(** C2 (the code departs from the claim).  Object 100 acquires device 0
    twice and returns it once.  [ReturnDevice] succeeds and resets device 0
    although the entry (100, 0) is still in [ObjectToDeviceMap]. *)
Theorem ReturnDevice_resets_held_device :
  ∃ p1 p2 p3,
    GetDevice 100 0 (fresh 1) = Returns false p1 ∧
    GetDevice 100 0 p1 = Returns false p2 ∧
    ObjectToDeviceMap (mgr (world p2)) = [(100, 0); (100, 0)] ∧
    ReturnDevice 100 0 p2 = Returns false p3 ∧
    ObjectToDeviceMap (mgr (world p3)) = [(100, 0)] ∧
    calls (cuda (world p3)) = [DeviceReset 0] ∧
    resets 0 (world p3) = 1%nat.
Proof. do 3 eexists. split_and!; vm_compute; reflexivity. Qed.

(** C3.  Let device [d] be valid and held by nobody, in a state where the
    lock is free if any device is held at all (if none is, [GetDevice]
    allocates the lock).  Two distinct objects [A] and [B] acquire [d] once
    each.  Then [ReturnDevice A d] succeeds without resetting the device,
    and the following [ReturnDevice B d] succeeds and resets it: one reset
    of [d] in total. *)
Theorem two_owners_one_reset (p : Process) (A B d : Z) :
  A ≠ B →
  count_status (cuda (world p)) = 0 →
  0 ≤ d < device_count (cuda (world p)) →
  (∀ o, (o, d) ∉ ObjectToDeviceMap (mgr (world p))) →
  lock_consistent p →
  ∃ p1 p2 p3 p4,
    GetDevice A d p = Returns false p1 ∧
    GetDevice B d p1 = Returns false p2 ∧
    ReturnDevice A d p2 = Returns false p3 ∧
    resets d (world p3) = resets d (world p) ∧
    ReturnDevice B d p3 = Returns false p4 ∧
    resets d (world p4) = S (resets d (world p)) ∧
    ObjectToDeviceMap (mgr (world p4)) ≡ₚ ObjectToDeviceMap (mgr (world p)).
Proof.
  intros Hne Hst Hd Hfree Hl.
  pose proof (two_owners_one_reset_nolock (world p) A B d Hne Hst Hd Hfree)
    as (HgA & HgB & HrA & HresA & HrB & HresB & Hperm).
  set (gA := GetDevice_nolock A d (world p)) in *.
  set (gB := GetDevice_nolock B d gA.2) in *.
  set (rA := ReturnDevice_nolock A d gB.2) in *.
  set (rB := ReturnDevice_nolock B d rA.2) in *.
  pose proof (GetDevice_nolock_holds A d (world p) HgA) as HinA. fold gA in HinA.
  pose proof (proj1 (ReturnDevice_nolock_success B d rA.2) HrB) as HinB.
  eexists (mkProcess gA.2 Free), (mkProcess gB.2 Free), (mkProcess rA.2 Free), _.
  split_and!.
  - rewrite GetDevice_returns by done. cbv zeta. fold gA. by rewrite HgA.
  - rewrite GetDevice_returns by (intros _; done).
    cbv zeta. cbn [world]. fold gB. by rewrite HgB.
  - rewrite ReturnDevice_outcome. cbn [locking regularLock world]. fold rA.
    rewrite HrA. by destruct (ObjectToDeviceMap (mgr rA.2));
      [apply elem_of_nil in HinB |].
  - done.
  - rewrite ReturnDevice_outcome. cbn [locking regularLock world]. fold rB.
    rewrite HrB. reflexivity.
  - done.
  - done.
Qed.

Lemma two_owners_one_reset_witness :
  ∃ p1 p2 p3 p4,
    GetDevice 100 0 (fresh 2) = Returns false p1 ∧
    GetDevice 200 0 p1 = Returns false p2 ∧
    ReturnDevice 100 0 p2 = Returns false p3 ∧
    resets 0 (world p3) = resets 0 (world (fresh 2)) ∧
    ReturnDevice 200 0 p3 = Returns false p4 ∧
    resets 0 (world p4) = S (resets 0 (world (fresh 2))) ∧
    ObjectToDeviceMap (mgr (world p4)) ≡ₚ ObjectToDeviceMap (mgr (world (fresh 2))).
Proof.
  apply (two_owners_one_reset (fresh 2) 100 200 0).
  - lia.
  - reflexivity.
  - simpl. lia.
  - intros o Ho. simpl in Ho. by apply elem_of_nil in Ho.
  - intros Hod. by destruct Hod.
Defined.

(** C4.  [GetDevice] with a device outside [0, GetNumberOfDevices()) fails,
    its last error message is the invalid-device one, and neither the three
    containers nor the runtime nor the lock change.  Otherwise it succeeds
    and [ObjectToDeviceMap] gains exactly one entry (caller, device),
    whatever entries it already held, so the number of such entries grows by
    one; the stream containers, the runtime and the error stream are
    unchanged.  The lock the call needs is the one it allocates itself when
    [ObjectToDeviceMap] is empty, and the one at hand otherwise. *)
Theorem GetDevice_spec (caller device : Z) (p : Process) :
  let n := (GetNumberOfDevices (world p)).1 in
  let w := world p in
  (device < 0 ∨ n ≤ device →
     ∃ p', GetDevice caller device p = Returns true p' ∧
           last (errors (world p')) = Some msg_invalid_device ∧
           mgr (world p') = mgr w ∧ cuda (world p') = cuda w ∧
           regularLock p' = regularLock p) ∧
  (0 ≤ device < n → lock_consistent p →
     ∃ p', GetDevice caller device p = Returns false p' ∧
           ObjectToDeviceMap (mgr (world p')) ≡ₚ
             (caller, device) :: ObjectToDeviceMap (mgr w) ∧
           length (filter (λ e, e = (caller, device))
                     (ObjectToDeviceMap (mgr (world p')))) =
             S (length (filter (λ e, e = (caller, device))
                          (ObjectToDeviceMap (mgr w)))) ∧
           StreamToDeviceMap (mgr (world p')) = StreamToDeviceMap (mgr w) ∧
           StreamToObjectMap (mgr (world p')) = StreamToObjectMap (mgr w) ∧
           cuda (world p') = cuda w ∧ errors (world p') = errors w ∧
           regularLock p' = Free).
Proof.
  intros n w.
  destruct (GetDevice_spec_nolock caller device w) as [Hinv Hval].
  split.
  - intros Hv. destruct (Hinv Hv) as (H1 & H2 & H3 & H4).
    eexists. rewrite GetDevice_outcome. cbv zeta. fold w. rewrite H1.
    split; [reflexivity |]. done.
  - intros Hv Hl. destruct (Hval Hv) as (H1 & H2 & H3 & H4 & H5 & H6 & H7).
    eexists. rewrite GetDevice_returns by done. cbv zeta. fold w. rewrite H1.
    split; [reflexivity |]. done.
Qed.

Lemma GetDevice_spec_witness :
  (∃ p', GetDevice 100 2 (fresh 2) = Returns true p' ∧
         last (errors (world p')) = Some msg_invalid_device ∧
         mgr (world p') = mgr (world (fresh 2)) ∧
         cuda (world p') = cuda (world (fresh 2)) ∧
         regularLock p' = regularLock (fresh 2)) ∧
  ∃ p1,
    GetDevice 100 1 (fresh 2) = Returns false p1 ∧
    ∃ p', GetDevice 100 1 p1 = Returns false p' ∧
          ObjectToDeviceMap (mgr (world p')) ≡ₚ
            (100, 1) :: ObjectToDeviceMap (mgr (world p1)) ∧
          length (filter (λ e, e = (100, 1))
                    (ObjectToDeviceMap (mgr (world p')))) =
            S (length (filter (λ e, e = (100, 1))
                         (ObjectToDeviceMap (mgr (world p1))))) ∧
          StreamToDeviceMap (mgr (world p')) = StreamToDeviceMap (mgr (world p1)) ∧
          StreamToObjectMap (mgr (world p')) = StreamToObjectMap (mgr (world p1)) ∧
          cuda (world p') = cuda (world p1) ∧
          errors (world p') = errors (world p1) ∧
          regularLock p' = Free.
Proof.
  split.
  - apply (proj1 (GetDevice_spec 100 2 (fresh 2))). right. simpl. lia.
  - eexists. split; [vm_compute; reflexivity |].
    apply (proj2 (GetDevice_spec 100 1 _)); [simpl; lia | by intros _].
Defined.

(** * Claims on [GetStream] *)

Lemma GetStream_returns (caller stream device : Z) (p : Process) :
  lock_free p →
  GetStream caller stream device p =
  let r := GetStream_nolock caller stream device (world p) in
  Returns r.1 (mkProcess r.2 Free).
Proof.
  intros Hl. rewrite GetStream_outcome, Hl. cbv zeta.
  by destruct (invalid_device device (world p)).1.
Qed.







(** * Claims on [ReturnStream] *)

Lemma ReturnStream_returns (caller stream device : Z) (p : Process) :
  lock_free p →
  ReturnStream caller stream device p =
  let r := ReturnStream_nolock caller stream device (world p) in
  Returns r.1 (mkProcess r.2 Free).
Proof. intros Hl. by rewrite ReturnStream_outcome, Hl. Qed.




(** When the pair is recorded but the stream has lost its binding (object
    100 still uses stream 1000 when [DestroyEmptyStream] is called on it),
    the test of [ReturnStream] reads [StreamToDeviceMap[stream]] and so
    inserts the binding 1000 -> 0: the failing call for device 1 leaves that
    binding behind. *)
Lemma ReturnStream_unbound_stream_inserts :
  ∃ p1 p2 p3 p4,
    GetDevice 100 0 (fresh 2) = Returns false p1 ∧
    GetStream 100 0 1 p1 = Returns (false, 1000) p2 ∧
    DestroyEmptyStream 1000 p2 = Returns tt p3 ∧
    StreamToObjectMap (mgr (world p3)) = [(1000, 100)] ∧
    StreamToDeviceMap (mgr (world p3)) !! 1000 = None ∧
    ReturnStream 100 1000 1 p3 = Returns true p4 ∧
    StreamToDeviceMap (mgr (world p4)) !! 1000 = Some 0.
Proof. do 4 eexists. split_and!; vm_compute; reflexivity. Qed.

(** * Claims on the active device *)

Lemma SynchronizeStream_returns (stream : Z) (p : Process) :
  lock_free p →
  SynchronizeStream stream p =
  let r := SynchronizeStream_nolock stream (world p) in
  Returns r.1 (mkProcess r.2 Free).
Proof. intros Hl. by rewrite SynchronizeStream_outcome, Hl. Qed.





(** * Claims on [DestroyEmptyStream] *)





(** * Claims on shutdown *)

(** C9 (the code departs from the claim).  Object 100 holds device 0 and has
    the stream 1000 on it when the manager is destroyed.  The destructor
    takes the lock and, for the first stream, calls [SynchronizeStream],
    which takes the lock again: the destructor waits for the mutex it holds.
    No stream is destroyed, no device is reset and the containers are not
    cleared. *)
Theorem destructor_waits_for_its_own_lock :
  ∃ p1 p2,
    GetDevice 100 0 (fresh 2) = Returns false p1 ∧
    GetStream 100 0 0 p1 = Returns (false, 1000) p2 ∧
    StreamToDeviceMap (mgr (world p2)) !! 1000 = Some 0 ∧
    regularLock p2 = Free ∧
    destructor p2 = Hangs.
Proof. do 2 eexists. split_and!; vm_compute; reflexivity. Qed.

(** * Further properties of the manager *)

(** ** [GetStream]: creating, adopting and sharing a stream *)

(** X1.  While the lock is there to be taken, [GetStream] with a null handle
    and a valid device creates a stream: provided the null handle is not
    recorded for the caller and the address [operator new] returns is not a
    key of [StreamToDeviceMap], the call succeeds, hands back that new
    address, binds it to the requested device, records it for the caller,
    leaves every other binding, the recorded pairs and [ObjectToDeviceMap]
    alone, makes the device active without switching back, and issues
    exactly [cudaSetDevice] and [cudaStreamCreate]. *)
Theorem GetStream_creates_stream (caller device : Z) (p : Process) :
  lock_free p →
  0 ≤ device < (GetNumberOfDevices (world p)).1 →
  (0, caller) ∉ StreamToObjectMap (mgr (world p)) →
  StreamToDeviceMap (mgr (world p)) !! heap (world p) = None →
  let w := world p in
  ∃ p',
    GetStream caller 0 device p = Returns (false, heap w) p' ∧
    StreamToDeviceMap (mgr (world p')) =
      <[heap w := device]> (StreamToDeviceMap (mgr w)) ∧
    StreamToObjectMap (mgr (world p')) ≡ₚ
      (heap w, caller) :: StreamToObjectMap (mgr w) ∧
    ObjectToDeviceMap (mgr (world p')) = ObjectToDeviceMap (mgr w) ∧
    active (cuda (world p')) = device ∧
    calls (cuda (world p')) =
      calls (cuda w) ++ [SetDevice device; StreamCreate (heap w)] ∧
    errors (world p') = errors w ∧
    regularLock p' = Free.
Proof.
  intros Hl Hv Hn Hfresh w. eexists. rewrite GetStream_returns by done.
  destruct (GetStream_creates_stream_nolock caller device w Hv Hn Hfresh)
    as (H1 & H2 & H3 & H4 & H5 & H6 & H7).
  cbv zeta. fold w. rewrite H1. split; [reflexivity |]. done.
Qed.

Lemma GetStream_creates_stream_witness :
  ∃ p1,
    GetDevice 100 0 (fresh 2) = Returns false p1 ∧
    ∃ p',
      GetStream 200 0 1 p1 = Returns (false, heap (world p1)) p' ∧
      StreamToDeviceMap (mgr (world p')) =
        <[heap (world p1) := 1]> (StreamToDeviceMap (mgr (world p1))) ∧
      StreamToObjectMap (mgr (world p')) ≡ₚ
        (heap (world p1), 200) :: StreamToObjectMap (mgr (world p1)) ∧
      ObjectToDeviceMap (mgr (world p')) = ObjectToDeviceMap (mgr (world p1)) ∧
      active (cuda (world p')) = 1 ∧
      calls (cuda (world p')) =
        calls (cuda (world p1)) ++ [SetDevice 1; StreamCreate (heap (world p1))] ∧
      errors (world p') = errors (world p1) ∧
      regularLock p' = Free.
Proof.
  eexists. split; [vm_compute; reflexivity |].
  apply (GetStream_creates_stream 200 1).
  - reflexivity.
  - simpl. lia.
  - apply not_elem_of_nil.
  - reflexivity.
Defined.

(** X2.  While the lock is there to be taken, [GetStream] with a stream
    handle (not null) that is unbound or bound to the requested valid
    device, for a caller not yet recorded with it: the call succeeds and
    hands back the same handle; afterwards the stream is bound to the
    device, every other binding is as before, the pair (stream, caller) is
    recorded once more, [ObjectToDeviceMap] is unchanged, and the only
    runtime call is [cudaSetDevice]: no stream is created.  Several objects
    can thus share one stream. *)
Theorem GetStream_shares_stream (caller stream device : Z) (p : Process) :
  lock_free p →
  stream ≠ 0 →
  0 ≤ device < (GetNumberOfDevices (world p)).1 →
  (∀ d, StreamToDeviceMap (mgr (world p)) !! stream = Some d → d = device) →
  (stream, caller) ∉ StreamToObjectMap (mgr (world p)) →
  let w := world p in
  ∃ p',
    GetStream caller stream device p = Returns (false, stream) p' ∧
    StreamToDeviceMap (mgr (world p')) !! stream = Some device ∧
    (∀ s, s ≠ stream →
       StreamToDeviceMap (mgr (world p')) !! s = StreamToDeviceMap (mgr w) !! s) ∧
    StreamToObjectMap (mgr (world p')) ≡ₚ
      (stream, caller) :: StreamToObjectMap (mgr w) ∧
    ObjectToDeviceMap (mgr (world p')) = ObjectToDeviceMap (mgr w) ∧
    calls (cuda (world p')) = calls (cuda w) ++ [SetDevice device] ∧
    heap (world p') = heap w ∧ errors (world p') = errors w ∧
    regularLock p' = Free.
Proof.
  intros Hl Hs Hv Hb Hn w. eexists. rewrite GetStream_returns by done.
  destruct (GetStream_shares_stream_nolock caller stream device w Hs Hv Hb Hn)
    as (H1 & H2 & H3 & H4 & H5 & H6 & H7 & H8).
  cbv zeta. fold w. rewrite H1. split; [reflexivity |]. done.
Qed.

Lemma GetStream_shares_stream_witness :
  ∃ p1 p2,
    GetDevice 100 0 (fresh 2) = Returns false p1 ∧
    GetStream 100 0 1 p1 = Returns (false, 1000) p2 ∧
    ∃ p',
      GetStream 200 1000 1 p2 = Returns (false, 1000) p' ∧
      StreamToDeviceMap (mgr (world p')) !! 1000 = Some 1 ∧
      (∀ s, s ≠ 1000 →
         StreamToDeviceMap (mgr (world p')) !! s =
         StreamToDeviceMap (mgr (world p2)) !! s) ∧
      StreamToObjectMap (mgr (world p')) ≡ₚ
        (1000, 200) :: StreamToObjectMap (mgr (world p2)) ∧
      ObjectToDeviceMap (mgr (world p')) = ObjectToDeviceMap (mgr (world p2)) ∧
      calls (cuda (world p')) = calls (cuda (world p2)) ++ [SetDevice 1] ∧
      heap (world p') = heap (world p2) ∧ errors (world p') = errors (world p2) ∧
      regularLock p' = Free.
Proof.
  do 2 eexists. split_and!; [vm_compute; reflexivity .. |].
  apply (GetStream_shares_stream 200 1000 1).
  - reflexivity.
  - lia.
  - simpl. lia.
  - intros d Hd. vm_compute in Hd. congruence.
  - vm_compute. intros [[=] | H]%elem_of_cons. by apply elem_of_nil in H.
Defined.

(** ** [GetStream] and [ReturnStream] together *)

(** X3.  Creating a stream and returning it is a round trip on the
    containers.  While the lock is there to be taken, and when the address
    [operator new] returns is not in use by either stream container,
    [GetStream] with a null handle followed by [ReturnStream] of the stream
    it handed back, for the same caller and device, succeeds and leaves
    [StreamToDeviceMap], [StreamToObjectMap] and [ObjectToDeviceMap] exactly
    as they were before the two calls; the return issues no runtime call. *)
Theorem GetStream_ReturnStream_round_trip (caller device : Z) (p : Process) :
  lock_free p →
  0 ≤ device < (GetNumberOfDevices (world p)).1 →
  (0, caller) ∉ StreamToObjectMap (mgr (world p)) →
  StreamToDeviceMap (mgr (world p)) !! heap (world p) = None →
  (∀ o, (heap (world p), o) ∉ StreamToObjectMap (mgr (world p))) →
  ∃ p1 p2,
    GetStream caller 0 device p = Returns (false, heap (world p)) p1 ∧
    ReturnStream caller (heap (world p)) device p1 = Returns false p2 ∧
    mgr (world p2) = mgr (world p) ∧
    cuda (world p2) = cuda (world p1) ∧
    errors (world p2) = errors (world p) ∧
    regularLock p2 = Free.
Proof.
  intros Hl Hv Hnull Hfresh Hnone.
  destruct (GetStream_ReturnStream_round_trip_nolock caller device (world p)
              Hv Hnull Hfresh Hnone) as (H1 & H2 & H3 & H4 & H5).
  destruct (GetStream_creates_stream_nolock caller device (world p)
              Hv Hnull Hfresh) as (Hg & _).
  rewrite Hg in H2, H3, H4, H5. cbn [fst snd] in H2, H3, H4, H5.
  do 2 eexists. rewrite GetStream_returns by done. cbv zeta. rewrite Hg.
  split; [reflexivity |]. rewrite ReturnStream_returns by done.
  cbv zeta. cbn [world]. rewrite H2. split; [reflexivity |]. done.
Qed.

Lemma GetStream_ReturnStream_round_trip_witness :
  ∃ p0,
    GetDevice 100 0 (fresh 2) = Returns false p0 ∧
    ∃ p1 p2,
      GetStream 100 0 1 p0 = Returns (false, heap (world p0)) p1 ∧
      ReturnStream 100 (heap (world p0)) 1 p1 = Returns false p2 ∧
      mgr (world p2) = mgr (world p0) ∧
      cuda (world p2) = cuda (world p1) ∧
      errors (world p2) = errors (world p0) ∧
      regularLock p2 = Free.
Proof.
  eexists. split; [vm_compute; reflexivity |].
  apply (GetStream_ReturnStream_round_trip 100 1).
  - reflexivity.
  - simpl. lia.
  - apply not_elem_of_nil.
  - reflexivity.
  - intros o. apply not_elem_of_nil.
Defined.

(** X4.  A shared stream stays bound until its last user returns it.  While
    the lock is there to be taken, object [A] creates a stream on a valid
    device and a different object [B] acquires the same stream.  When [A]
    returns it the stream is still bound to the device and still recorded
    for [B]; when [B] then returns it the binding is erased, both stream
    containers are back to what they held before the stream was created
    (the recorded pairs up to order), and [SynchronizeStream] on the stream
    fails. *)
Theorem shared_stream_released_by_last_user (A B device : Z) (p : Process) :
  lock_free p →
  A ≠ B →
  0 ≤ device < (GetNumberOfDevices (world p)).1 →
  heap (world p) ≠ 0 →
  (0, A) ∉ StreamToObjectMap (mgr (world p)) →
  StreamToDeviceMap (mgr (world p)) !! heap (world p) = None →
  (∀ o, (heap (world p), o) ∉ StreamToObjectMap (mgr (world p))) →
  let s := heap (world p) in
  ∃ p1 p2 p3 p4 p5,
    GetStream A 0 device p = Returns (false, s) p1 ∧
    GetStream B s device p1 = Returns (false, s) p2 ∧
    ReturnStream A s device p2 = Returns false p3 ∧
    StreamToDeviceMap (mgr (world p3)) !! s = Some device ∧
    (s, B) ∈ StreamToObjectMap (mgr (world p3)) ∧
    ReturnStream B s device p3 = Returns false p4 ∧
    StreamToDeviceMap (mgr (world p4)) = StreamToDeviceMap (mgr (world p)) ∧
    StreamToObjectMap (mgr (world p4)) ≡ₚ StreamToObjectMap (mgr (world p)) ∧
    SynchronizeStream s p4 = Returns true p5.
Proof.
  intros Hl Hne Hv Hnz HnullA Hfresh Hnone s.
  destruct (shared_stream_released_by_last_user_nolock A B device (world p)
              Hne Hv Hnz HnullA Hfresh Hnone)
    as (H1 & H2 & H3 & H4 & H5 & H6 & H7 & H8 & H9).
  fold s in H1, H2, H3, H4, H5, H6, H7, H8, H9.
  do 5 eexists.
  rewrite GetStream_returns by done. cbv zeta. rewrite H1.
  split; [reflexivity |].
  rewrite GetStream_returns by done. cbv zeta. cbn [world]. rewrite H2.
  split; [reflexivity |].
  rewrite ReturnStream_returns by done. cbv zeta. cbn [world]. rewrite H3.
  split; [reflexivity |]. cbn [world]. split; [exact H4 |]. split; [exact H5 |].
  rewrite ReturnStream_returns by done. cbv zeta. cbn [world]. rewrite H6.
  split; [reflexivity |]. cbn [world]. split; [exact H7 |]. split; [exact H8 |].
  rewrite SynchronizeStream_returns by done. cbv zeta. cbn [world]. rewrite H9.
  reflexivity.
Qed.

Lemma shared_stream_released_by_last_user_witness :
  ∃ p0,
    GetDevice 300 0 (fresh 2) = Returns false p0 ∧
    let s := heap (world p0) in
    ∃ p1 p2 p3 p4 p5,
      GetStream 100 0 1 p0 = Returns (false, s) p1 ∧
      GetStream 200 s 1 p1 = Returns (false, s) p2 ∧
      ReturnStream 100 s 1 p2 = Returns false p3 ∧
      StreamToDeviceMap (mgr (world p3)) !! s = Some 1 ∧
      (s, 200) ∈ StreamToObjectMap (mgr (world p3)) ∧
      ReturnStream 200 s 1 p3 = Returns false p4 ∧
      StreamToDeviceMap (mgr (world p4)) = StreamToDeviceMap (mgr (world p0)) ∧
      StreamToObjectMap (mgr (world p4)) ≡ₚ StreamToObjectMap (mgr (world p0)) ∧
      SynchronizeStream s p4 = Returns true p5.
Proof.
  eexists. split; [vm_compute; reflexivity |].
  apply (shared_stream_released_by_last_user 100 200 1).
  - reflexivity.
  - lia.
  - simpl. lia.
  - simpl. lia.
  - apply not_elem_of_nil.
  - reflexivity.
  - intros o. apply not_elem_of_nil.
Defined.

(** ** Queries after acquisitions *)

Lemma GetStream_Returns (caller stream device : Z) (p : Process) r p' :
  GetStream caller stream device p = Returns r p' →
  (r, world p') = GetStream_nolock caller stream device (world p) ∧
  regularLock p' = regularLock p ∧
  ((invalid_device device (world p)).1 = false → regularLock p = Free).
Proof.
  rewrite GetStream_outcome. cbv zeta.
  destruct (invalid_device device (world p)) as [[] w1] eqn:Hi; cbn [fst].
  - intros [= <- <-]. cbn [world regularLock].
    split; [by rewrite <- surjective_pairing |]. done.
  - intros [Hl [= <- <-]]%locking_Returns. cbn [world regularLock].
    split; [by rewrite <- surjective_pairing |]. done.
Qed.

Lemma GetStream_nolock_success (caller stream device : Z) (w : World) :
  (GetStream_nolock caller stream device w).1.1 = false →
  (invalid_device device w).1 = false.
Proof.
  unfold GetStream_nolock. by destruct (invalid_device device w) as [[] w1].
Qed.

Lemma QueryDeviceForStream_returns (stream : Z) (p : Process) :
  lock_free p →
  QueryDeviceForStream stream p =
  let r := QueryDeviceForStream_nolock stream (world p) in
  Returns r.1 (mkProcess r.2 Free).
Proof. intros Hl. by rewrite QueryDeviceForStream_outcome, Hl. Qed.

Lemma QueryDeviceForObject_returns (object : Z) (p : Process) :
  lock_free p →
  QueryDeviceForObject object p =
  let r := QueryDeviceForObject_nolock object (world p) in
  Returns r.1 (mkProcess r.2 Free).
Proof. intros Hl. by rewrite QueryDeviceForObject_outcome, Hl. Qed.

(** X5.  A stream handed back by a successful [GetStream] is bound to the
    requested device: [QueryDeviceForStream] on it returns that device and
    changes nothing.  This holds in a state where every owned stream is
    bound, the null handle is recorded for nobody and the address
    [operator new] returns is not yet a key of [StreamToDeviceMap]. *)
Theorem GetStream_then_QueryDeviceForStream
    (caller stream device s : Z) (p p' : Process) :
  owned_streams_bound (world p) →
  (∀ o, (0, o) ∉ StreamToObjectMap (mgr (world p))) →
  StreamToDeviceMap (mgr (world p)) !! heap (world p) = None →
  GetStream caller stream device p = Returns (false, s) p' →
  QueryDeviceForStream s p' = Returns device p'.
Proof.
  intros Hinv Hnull Hfresh Hg.
  apply GetStream_Returns in Hg as (Hg & Hl' & Hl).
  rewrite <- Hl' in Hl.
  specialize (Hl (GetStream_nolock_success _ _ _ _ (f_equal (fst ∘ fst) (eq_sym Hg)))).
  rewrite QueryDeviceForStream_returns by done.
  rewrite (GetStream_then_QueryDeviceForStream_nolock caller stream device s
             (world p) (world p') Hinv Hnull Hfresh); [| done].
  cbv zeta. cbn [fst snd]. destruct p' as [w' l']. cbn [world regularLock] in *.
  by rewrite Hl.
Qed.

Lemma GetStream_then_QueryDeviceForStream_witness :
  ∃ p1 p2,
    GetDevice 100 0 (fresh 2) = Returns false p1 ∧
    GetStream 100 0 1 p1 = Returns (false, 1000) p2 ∧
    QueryDeviceForStream 1000 p2 = Returns 1 p2.
Proof.
  do 2 eexists. split; [vm_compute; reflexivity |].
  match goal with |- GetStream _ _ _ ?q = _ ∧ _ => pose (p1 := q) end.
  split; [vm_compute; reflexivity |].
  apply (GetStream_then_QueryDeviceForStream 100 0 1 1000 p1).
  - intros s o Hin. by apply elem_of_nil in Hin.
  - intros o. apply not_elem_of_nil.
  - reflexivity.
  - vm_compute. reflexivity.
Defined.

(** X6.  [QueryDeviceForObject] answers only for an object with exactly one
    entry.  In a state where the lock is free if any device is held,
    [GetDevice] of a valid device succeeds.  After it, for an object that
    held nothing, [QueryDeviceForObject] returns the acquired device and
    changes nothing; for an object that already held an entry (of the same
    device or another one) it returns -1 with the no-unique-mapping
    message. *)
Theorem QueryDeviceForObject_after_GetDevice
    (caller device : Z) (p : Process) :
  0 ≤ device < (GetNumberOfDevices (world p)).1 →
  lock_consistent p →
  ∃ p1,
    GetDevice caller device p = Returns false p1 ∧
    ((∀ d, (caller, d) ∉ ObjectToDeviceMap (mgr (world p))) →
       QueryDeviceForObject caller p1 = Returns device p1) ∧
    ((∃ d, (caller, d) ∈ ObjectToDeviceMap (mgr (world p))) →
       QueryDeviceForObject caller p1 =
       Returns (-1)
         (mkProcess (vtkErrorMacro msg_no_unique_mapping (world p1))
                    (regularLock p1))).
Proof.
  intros Hv Hl.
  destruct (QueryDeviceForObject_after_GetDevice_nolock caller device (world p) Hv)
    as [Hone Hmany].
  eexists. rewrite GetDevice_returns by done. cbv zeta.
  rewrite GetDevice_valid by done. cbn [fst snd].
  rewrite GetDevice_valid in Hone, Hmany by done. cbn [snd] in Hone, Hmany.
  split; [reflexivity |]. split; intros H.
  - rewrite QueryDeviceForObject_returns by done. cbv zeta. cbn [world].
    by rewrite (Hone H).
  - rewrite QueryDeviceForObject_returns by done. cbv zeta. cbn [world].
    by rewrite (Hmany H).
Qed.

Lemma QueryDeviceForObject_after_GetDevice_witness :
  (∃ p1,
     GetDevice 100 1 (fresh 2) = Returns false p1 ∧
     ((∀ d, (100, d) ∉ ObjectToDeviceMap (mgr (world (fresh 2)))) →
        QueryDeviceForObject 100 p1 = Returns 1 p1) ∧
     ((∃ d, (100, d) ∈ ObjectToDeviceMap (mgr (world (fresh 2)))) →
        QueryDeviceForObject 100 p1 =
        Returns (-1)
          (mkProcess (vtkErrorMacro msg_no_unique_mapping (world p1))
                     (regularLock p1)))) ∧
  ∃ p1,
    GetDevice 100 1 (fresh 2) = Returns false p1 ∧
    QueryDeviceForObject 100 p1 = Returns 1 p1.
Proof.
  split.
  - apply (QueryDeviceForObject_after_GetDevice 100 1 (fresh 2));
      [simpl; lia | by intros []].
  - eexists. split; vm_compute; reflexivity.
Defined.

(** ** [ReturnDevice]: failure, success, and the round trip with [GetDevice] *)

Lemma ReturnDevice_returns (caller device : Z) (p : Process) :
  lock_free p →
  ReturnDevice caller device p =
  let r := ReturnDevice_nolock caller device (world p) in
  Returns r.1
    (mkProcess r.2
       (if r.1 then Free
        else match ObjectToDeviceMap (mgr r.2) with
             | [] => Deleted
             | _ => Free
             end)).
Proof. intros Hl. by rewrite ReturnDevice_outcome, Hl. Qed.

(** X7.  While the lock is there to be taken, [ReturnDevice] succeeds
    exactly when the pair (caller, device) is in [ObjectToDeviceMap].  When
    it is not, the call reports the pair-not-found message and changes
    neither the containers nor the runtime nor the lock.  When it is,
    exactly one entry (caller, device) is erased and all other entries stay,
    the active device is the same after the call as before (also when the
    device was reset), nothing is written to the error stream, and the lock
    is deleted exactly when no entry is left. *)
Theorem ReturnDevice_spec (caller device : Z) (p : Process) :
  lock_free p →
  let od := ObjectToDeviceMap (mgr (world p)) in
  ((caller, device) ∉ od →
     ∃ p',
       ReturnDevice caller device p = Returns true p' ∧
       errors (world p') = errors (world p) ++ [msg_pair_not_found] ∧
       mgr (world p') = mgr (world p) ∧ cuda (world p') = cuda (world p) ∧
       regularLock p' = Free) ∧
  ((caller, device) ∈ od →
     ∃ p',
       ReturnDevice caller device p = Returns false p' ∧
       od ≡ₚ (caller, device) :: ObjectToDeviceMap (mgr (world p')) ∧
       active (cuda (world p')) = active (cuda (world p)) ∧
       errors (world p') = errors (world p) ∧
       heap (world p') = heap (world p) ∧
       (ObjectToDeviceMap (mgr (world p')) = [] → regularLock p' = Deleted) ∧
       (ObjectToDeviceMap (mgr (world p')) ≠ [] → regularLock p' = Free)).
Proof.
  intros Hl od.
  destruct (ReturnDevice_spec_nolock caller device (world p))
    as (Hiff & Hfail & Hok).
  split; intros H; eexists; rewrite ReturnDevice_returns by done; cbv zeta.
  - destruct (Hfail H) as (H1 & H2 & H3).
    rewrite ReturnDevice_not_found in * by done.
    split; [reflexivity |]. done.
  - rewrite (proj2 Hiff H). split; [reflexivity |]. cbn [world regularLock].
    destruct (Hok H) as (H1 & H2 & H3 & H4).
    split_and!; try done.
    + by intros ->.
    + intros Hne.
      by destruct (ObjectToDeviceMap
                     (mgr (ReturnDevice_nolock caller device (world p)).2)).
Qed.

Lemma ReturnDevice_spec_witness :
  ∃ p1,
    GetDevice 100 1 (fresh 2) = Returns false p1 ∧
    (∃ p',
       ReturnDevice 100 0 p1 = Returns true p' ∧
       errors (world p') = errors (world p1) ++ [msg_pair_not_found] ∧
       mgr (world p') = mgr (world p1) ∧ cuda (world p') = cuda (world p1) ∧
       regularLock p' = Free) ∧
    (∃ p',
       ReturnDevice 100 1 p1 = Returns false p' ∧
       ObjectToDeviceMap (mgr (world p1)) ≡ₚ
         (100, 1) :: ObjectToDeviceMap (mgr (world p')) ∧
       active (cuda (world p')) = active (cuda (world p1)) ∧
       errors (world p') = errors (world p1) ∧
       heap (world p') = heap (world p1) ∧
       (ObjectToDeviceMap (mgr (world p')) = [] → regularLock p' = Deleted) ∧
       (ObjectToDeviceMap (mgr (world p')) ≠ [] → regularLock p' = Free)).
Proof.
  eexists. split; [vm_compute; reflexivity |]. split.
  - match goal with
    | |- context [ReturnDevice 100 0 ?p] =>
        apply (proj1 (ReturnDevice_spec 100 0 p eq_refl))
    end.
    vm_compute. intros [[=] | H]%elem_of_cons. by apply elem_of_nil in H.
  - match goal with
    | |- context [ReturnDevice 100 1 ?p] =>
        apply (proj2 (ReturnDevice_spec 100 1 p eq_refl))
    end.
    vm_compute. apply elem_of_cons. by left.
Defined.

(** X8.  In a state where the lock is free if any device is held,
    acquiring a valid device and returning it again, by the same object,
    succeeds both times and puts [ObjectToDeviceMap] back to the
    entries it held before (up to order); the stream pairs, the active
    device and the error stream are unchanged.  The device is reset once by
    the return when no other object holds it, and not at all when another
    object does. *)
Theorem GetDevice_ReturnDevice_round_trip (caller device : Z) (p : Process) :
  0 ≤ device < (GetNumberOfDevices (world p)).1 →
  lock_consistent p →
  let w := world p in
  ∃ p1 p2,
    GetDevice caller device p = Returns false p1 ∧
    ReturnDevice caller device p1 = Returns false p2 ∧
    ObjectToDeviceMap (mgr (world p2)) ≡ₚ ObjectToDeviceMap (mgr w) ∧
    StreamToObjectMap (mgr (world p2)) = StreamToObjectMap (mgr w) ∧
    active (cuda (world p2)) = active (cuda w) ∧
    errors (world p2) = errors w ∧
    resets device (world p2) =
      (resets device w +
       if other_holder caller device (ObjectToDeviceMap (mgr w)) then 0 else 1)%nat.
Proof.
  intros Hv Hl w.
  destruct (GetDevice_ReturnDevice_round_trip_nolock caller device w Hv)
    as (H1 & H2 & H3 & H4 & H5 & H6 & H7).
  do 2 eexists. rewrite GetDevice_returns by done. cbv zeta. fold w.
  rewrite H1. split; [reflexivity |].
  rewrite ReturnDevice_returns by done. cbv zeta. cbn [world]. rewrite H2.
  split; [reflexivity |]. done.
Qed.

Lemma GetDevice_ReturnDevice_round_trip_witness :
  ∃ p0,
    GetDevice 200 0 (fresh 2) = Returns false p0 ∧
    ∃ p1 p2,
      GetDevice 100 1 p0 = Returns false p1 ∧
      ReturnDevice 100 1 p1 = Returns false p2 ∧
      ObjectToDeviceMap (mgr (world p2)) ≡ₚ ObjectToDeviceMap (mgr (world p0)) ∧
      StreamToObjectMap (mgr (world p2)) = StreamToObjectMap (mgr (world p0)) ∧
      active (cuda (world p2)) = active (cuda (world p0)) ∧
      errors (world p2) = errors (world p0) ∧
      resets 1 (world p2) =
        (resets 1 (world p0) +
         if other_holder 100 1 (ObjectToDeviceMap (mgr (world p0)))
         then 0 else 1)%nat.
Proof.
  eexists. split; [vm_compute; reflexivity |].
  apply (GetDevice_ReturnDevice_round_trip 100 1); [simpl; lia | by intros _].
Defined.

(** ** What a call that returns has done *)

Lemma bind_Returns {A B : Type} (m : Method A) (k : A → Method B) p b p' :
  (m ≫= k) p = Returns b p' →
  ∃ a q, m p = Returns a q ∧ k a q = Returns b p'.
Proof.
  unfold mbind, Method_bind. destruct (m p) as [a q | |]; [| done | done].
  intros H. by exists a, q.
Qed.

Lemma discard_Returns {A : Type} (m : Method A) p p' :
  (m;; mret tt) p = Returns tt p' → ∃ a, m p = Returns a p'.
Proof.
  intros (a & q & Hm & Hk)%bind_Returns. injection Hk as <-. by exists a.
Qed.

(** A call that returns has changed the world as the method with the lock
    left out does.  The lock is as it was, except that a successful
    [GetDevice] leaves it free and a successful [ReturnDevice] deletes it
    when no entry is left; and every call but [GetNumberOfDevices] and a
    failing [GetDevice] or [GetStream] found the lock free, if only because
    [GetDevice] had just allocated it. *)
Lemma perform_Returns (c : Call) (p p' : Process) :
  perform c p = Returns tt p' →
  world p' = effect c (world p) ∧
  regularLock p' =
    match c with
    | CallGetDevice caller device =>
        if (GetDevice_nolock caller device (world p)).1 then regularLock p
        else Free
    | CallReturnDevice caller device =>
        if (ReturnDevice_nolock caller device (world p)).1 then Free
        else match ObjectToDeviceMap (mgr (world p')) with
             | [] => Deleted
             | _ => Free
             end
    | _ => regularLock p
    end ∧
  match c with
  | CallGetNumberOfDevices => True
  | CallGetDevice caller device =>
      (GetDevice_nolock caller device (world p)).1 = false →
      ObjectToDeviceMap (mgr (world p)) ≠ [] → regularLock p = Free
  | CallGetStream caller stream device =>
      (invalid_device device (world p)).1 = false → regularLock p = Free
  | _ => regularLock p = Free
  end.
Proof.
  destruct c; cbn [perform effect].
  - unfold mbind, Method_bind, lift, mret, Method_ret.
    destruct (GetNumberOfDevices (world p)) as [n w1]. by intros [= <-].
  - intros [r Hr]%discard_Returns. rewrite GetDevice_outcome in Hr.
    cbv zeta in Hr.
    destruct (GetDevice_nolock caller device (world p)) as [[] w1];
      cbn [fst snd] in *.
    + by injection Hr as <- <-.
    + apply locking_Returns in Hr as [Hl [= <- <-]]. split_and!; [done .. |].
      intros _ Hne. by destruct (ObjectToDeviceMap (mgr (world p))).
  - intros [r Hr]%discard_Returns. rewrite ReturnDevice_outcome in Hr.
    by apply locking_Returns in Hr as [Hl [= <- <-]].
  - intros [r Hr]%discard_Returns.
    apply GetStream_Returns in Hr as (Hr & Hl & Hfree).
    split_and!; [by rewrite <- Hr | done | done].
  - intros [r Hr]%discard_Returns. rewrite ReturnStream_outcome in Hr.
    by apply locking_Returns in Hr as [Hl [= <- <-]].
  - intros [r Hr]%discard_Returns. rewrite SynchronizeStream_outcome in Hr.
    by apply locking_Returns in Hr as [Hl [= <- <-]].
  - intros [r Hr]%discard_Returns. rewrite ReserveGPU_outcome in Hr.
    by apply locking_Returns in Hr as [Hl [= <- <-]].
  - intros [r Hr]%discard_Returns. rewrite QueryDeviceForObject_outcome in Hr.
    by apply locking_Returns in Hr as [Hl [= <- <-]].
  - intros [r Hr]%discard_Returns. rewrite QueryDeviceForStream_outcome in Hr.
    by apply locking_Returns in Hr as [Hl [= <- <-]].
  - rewrite DestroyEmptyStream_outcome.
    by intros [Hl [= <-]]%locking_Returns.
Qed.

(** ** Every owned stream stays bound *)

Lemma effect_bound (c : Call) (w : World) :
  (∀ stream, c = CallDestroyEmptyStream stream →
             ∀ o, (stream, o) ∉ StreamToObjectMap (mgr w)) →
  owned_streams_bound w → owned_streams_bound (effect c w).
Proof.
  intros Hc Hinv. destruct c; cbn [effect].
  - apply (owned_streams_bound_mgr w); [| done].
    unfold GetNumberOfDevices. by destruct (negb _).
  - by apply GetDevice_bound.
  - by apply ReturnDevice_bound.
  - by apply GetStream_bound.
  - by apply ReturnStream_bound.
  - apply (owned_streams_bound_mgr w); [apply SynchronizeStream_mgr | done].
  - apply (owned_streams_bound_mgr w); [apply ReserveGPU_mgr | done].
  - apply (owned_streams_bound_mgr w); [apply QueryDeviceForObject_mgr | done].
  - apply (owned_streams_bound_mgr w); [apply QueryDeviceForStream_mgr | done].
  - apply DestroyEmptyStream_bound; [by apply Hc | done].
Qed.

(** X9.  Invariant 1 holds in every state a new manager can get to: after
    any sequence of interface calls that return, in which
    [DestroyEmptyStream] is only applied to streams without a recorded user,
    every stream recorded in [StreamToObjectMap] has an entry in
    [StreamToDeviceMap]. *)
Theorem reachable_owned_streams_bound (p : Process) :
  reachable p → owned_streams_bound (world p).
Proof.
  induction 1 as [rt brk | p c p' _ IH Hc Hstep].
  - intros s o Hso. by apply elem_of_nil in Hso.
  - apply perform_Returns in Hstep as (-> & _). apply effect_bound; [| done].
    intros stream ->. exact Hc.
Qed.

Lemma reachable_owned_streams_bound_witness :
  ∃ p1 p2 p3 p4,
    GetDevice 100 0 (fresh 2) = Returns false p1 ∧
    GetStream 100 0 0 p1 = Returns (false, 1000) p2 ∧
    GetStream 200 1000 0 p2 = Returns (false, 1000) p3 ∧
    ReturnStream 100 1000 0 p3 = Returns false p4 ∧
    owned_streams_bound (world p4).
Proof.
  do 4 eexists. split_and!; [vm_compute; reflexivity .. |].
  apply reachable_owned_streams_bound.
  eapply (reachable_step _ (CallReturnStream 100 1000 0)); [| done |].
  - eapply (reachable_step _ (CallGetStream 200 1000 0)); [| done |].
    + eapply (reachable_step _ (CallGetStream 100 0 0)); [| done |].
      * eapply (reachable_step _ (CallGetDevice 100 0));
          [apply (reachable_new (rt0 2) 1000) | done |].
        vm_compute. reflexivity.
      * vm_compute. reflexivity.
    + vm_compute. reflexivity.
  - vm_compute. reflexivity.
Defined.

Lemma reachable_lock (p : Process) :
  reachable p →
  match ObjectToDeviceMap (mgr (world p)) with
  | [] => regularLock p = NoLock ∨ regularLock p = Deleted
  | _ => regularLock p = Free
  end.
Proof.
  induction 1 as [rt brk | p c p' _ IH Hc Hstep]; [by left |].
  apply perform_Returns in Hstep as (Hw & Hl & Hfree).
  assert (Hsame : ObjectToDeviceMap (mgr (world p')) =
                  ObjectToDeviceMap (mgr (world p)) →
                  regularLock p' = regularLock p →
                  match ObjectToDeviceMap (mgr (world p')) with
                  | [] => regularLock p' = NoLock ∨ regularLock p' = Deleted
                  | _ => regularLock p' = Free
                  end) by (by intros -> ->).
  assert (Hheld : regularLock p = Free → ObjectToDeviceMap (mgr (world p)) ≠ []).
  { intros Hf Hod. rewrite Hod, Hf in IH. by destruct IH. }
  destruct c; cbn [effect] in Hw.
  - apply Hsame; [| done]. rewrite Hw.
    unfold GetNumberOfDevices. by destruct (negb _).
  - rewrite Hl, Hw. unfold GetDevice_nolock in *.
    pose proof (invalid_device_mgr device (world p)) as Hm.
    destruct (invalid_device device (world p)) as [[] w1]; cbn [fst snd] in *.
    + cbn [vtkErrorMacro mgr]. by rewrite Hm.
    + cbn [with_ObjectToDeviceMap with_mgr mgr ObjectToDeviceMap].
      pose proof (insert_pair_perm caller device (ObjectToDeviceMap (mgr w1))) as Hp.
      destruct (MultiMap.insert_pair _ _ _); [| done].
      by apply Permutation_nil_cons in Hp.
  - rewrite Hl. specialize (Hheld Hfree).
    destruct (ReturnDevice_nolock caller device (world p)).1 eqn:Hr.
    + destruct (decide ((caller, device) ∈ ObjectToDeviceMap (mgr (world p))))
        as [Hin | Hn]; [by apply ReturnDevice_nolock_success in Hin; congruence |].
      rewrite Hw, ReturnDevice_not_found by done. cbn [snd vtkErrorMacro mgr].
      by destruct (ObjectToDeviceMap (mgr (world p))).
    + destruct (ObjectToDeviceMap (mgr (world p'))); [by right | done].
  - apply Hsame; [| done]. rewrite Hw. apply GetStream_shape.
  - apply Hsame; [| done]. rewrite Hw. apply ReturnStream_shape.
  - apply Hsame; [| done]. by rewrite Hw, SynchronizeStream_mgr.
  - apply Hsame; [| done]. by rewrite Hw, ReserveGPU_mgr.
  - apply Hsame; [| done]. by rewrite Hw, QueryDeviceForObject_mgr.
  - apply Hsame; [| done]. by rewrite Hw, QueryDeviceForStream_mgr.
  - apply Hsame; [| done]. rewrite Hw. apply DestroyEmptyStream_shape.
Qed.

Lemma reachable_lock_consistent (p : Process) :
  reachable p → lock_consistent p.
Proof.
  intros Hr Hne. apply reachable_lock in Hr.
  by destruct (ObjectToDeviceMap (mgr (world p))).
Qed.

(** X18.  In the states a new manager can get to, the lock is there to be
    taken exactly while some object holds a device: it is free when
    [ObjectToDeviceMap] is not empty, and null or deleted when it is empty.
    In the latter states the only calls with a defined outcome are
    [GetNumberOfDevices], [GetDevice], and [GetStream] with an invalid
    device; every other method, and the destructor, begins by using the
    null or deleted lock. *)
Theorem lock_exactly_while_a_device_is_held (p : Process) :
  reachable p →
  (ObjectToDeviceMap (mgr (world p)) ≠ [] → regularLock p = Free) ∧
  (ObjectToDeviceMap (mgr (world p)) = [] →
     (regularLock p = NoLock ∨ regularLock p = Deleted) ∧
     (∀ caller device, ReturnDevice caller device p = Undefined) ∧
     (∀ caller stream device,
        (invalid_device device (world p)).1 = false →
        GetStream caller stream device p = Undefined) ∧
     (∀ caller stream device, ReturnStream caller stream device p = Undefined) ∧
     (∀ stream, SynchronizeStream stream p = Undefined) ∧
     (∀ stream, ReserveGPU stream p = Undefined) ∧
     (∀ object, QueryDeviceForObject object p = Undefined) ∧
     (∀ stream, QueryDeviceForStream stream p = Undefined) ∧
     (∀ stream, DestroyEmptyStream stream p = Undefined) ∧
     destructor p = Undefined).
Proof.
  intros Hr. pose proof (reachable_lock p Hr) as Hl. split.
  - intros Hne. by destruct (ObjectToDeviceMap (mgr (world p))).
  - intros He. rewrite He in Hl.
    assert (Hu : ∀ (A : Type) (o : Outcome A),
              locking (regularLock p) o = Undefined)
      by (intros A o; by destruct Hl as [-> | ->]).
    split_and!; [done | intros ..].
    + by rewrite ReturnDevice_outcome.
    + rewrite GetStream_outcome. cbv zeta.
      by destruct (invalid_device device (world p)).1.
    + by rewrite ReturnStream_outcome.
    + by rewrite SynchronizeStream_outcome.
    + by rewrite ReserveGPU_outcome.
    + by rewrite QueryDeviceForObject_outcome.
    + by rewrite QueryDeviceForStream_outcome.
    + by rewrite DestroyEmptyStream_outcome.
    + by rewrite destructor_outcome.
Qed.

Lemma lock_exactly_while_a_device_is_held_witness :
  ∃ p1 p2,
    GetDevice 100 0 (fresh 2) = Returns false p1 ∧
    ReturnDevice 100 0 p1 = Returns false p2 ∧
    regularLock p1 = Free ∧
    regularLock p2 = Deleted ∧
    SynchronizeStream 7 p2 = Undefined.
Proof.
  do 2 eexists. split_and!; [vm_compute; reflexivity .. | | |].
  - match goal with
    | |- regularLock ?q = _ =>
        destruct (lock_exactly_while_a_device_is_held q) as [H _]
    end; [| by apply H].
    eapply (reachable_step _ (CallGetDevice 100 0));
      [apply (reachable_new (rt0 2) 1000) | done |].
    vm_compute. reflexivity.
  - reflexivity.
  - match goal with
    | |- SynchronizeStream _ ?q = _ =>
        destruct (lock_exactly_while_a_device_is_held q) as [_ H]
    end; [| by apply H].
    eapply (reachable_step _ (CallReturnDevice 100 0)); [| done |].
    + eapply (reachable_step _ (CallGetDevice 100 0));
        [apply (reachable_new (rt0 2) 1000) | done |].
      vm_compute. reflexivity.
    + vm_compute. reflexivity.
Defined.

(** ** What a call can do to bindings, devices and the runtime log *)

(** X10.  A binding never moves.  Whatever interface call is made, when it
    returns a stream that was bound to a device before the call is either
    bound to that same device or no longer bound; no call rebinds a bound
    stream to another device. *)
Theorem binding_never_moves (p p' : Process) (s d : Z) :
  call_step p p' →
  StreamToDeviceMap (mgr (world p)) !! s = Some d →
  StreamToDeviceMap (mgr (world p')) !! s = Some d ∨
  StreamToDeviceMap (mgr (world p')) !! s = None.
Proof.
  intros [c (-> & _)%perform_Returns] Hs. destruct c; cbn [effect].
  - left. unfold GetNumberOfDevices. by destruct (negb _).
  - left. unfold GetDevice_nolock.
    pose proof (invalid_device_mgr device (world p)) as Hm.
    destruct (invalid_device device (world p)) as [[] w1]; simpl in *;
      by rewrite Hm.
  - left. by apply ReturnDevice_shape.
  - left. by apply GetStream_shape.
  - by apply ReturnStream_shape.
  - left. by rewrite SynchronizeStream_mgr.
  - left. by rewrite ReserveGPU_mgr.
  - left. by rewrite (proj1 (QueryDeviceForObject_eq _ _)).
  - left. by rewrite (proj1 (QueryDeviceForStream_eq _ _)).
  - by apply DestroyEmptyStream_shape.
Qed.

Lemma binding_never_moves_witness :
  ∃ p1 p2 p3,
    GetDevice 100 0 (fresh 2) = Returns false p1 ∧
    GetStream 100 0 0 p1 = Returns (false, 1000) p2 ∧
    GetStream 200 1000 1 p2 = Returns (true, 1000) p3 ∧
    (StreamToDeviceMap (mgr (world p3)) !! 1000 = Some 0 ∨
     StreamToDeviceMap (mgr (world p3)) !! 1000 = None).
Proof.
  do 3 eexists. split; [vm_compute; reflexivity |].
  split; [vm_compute; reflexivity |].
  match goal with |- GetStream _ _ _ ?q = _ ∧ _ => pose (p2 := q) end.
  split; [vm_compute; reflexivity |].
  apply (binding_never_moves p2).
  - exists (CallGetStream 200 1000 1). vm_compute. reflexivity.
  - vm_compute. reflexivity.
Defined.

(** X11.  No interface call destroys a stream, and a device is only reset by
    returning it.  Every call that returns has only appended to the runtime
    log; what it appended contains no [cudaStreamDestroy], and contains a
    [cudaDeviceReset] of device [d] only when the call is a [ReturnDevice]
    of [d] by an object that held it. *)
Theorem calls_never_destroy_streams (c : Call) (p p' : Process) :
  perform c p = Returns tt p' →
  ∃ ext,
    calls (cuda (world p')) = calls (cuda (world p)) ++ ext ∧
    (∀ s, StreamDestroy s ∉ ext) ∧
    (∀ d, DeviceReset d ∈ ext →
       ∃ caller, (caller, d) ∈ ObjectToDeviceMap (mgr (world p)) ∧
                 c = CallReturnDevice caller d).
Proof.
  intros (-> & _)%perform_Returns. set (w := world p).
  assert (Hquiet : ∀ rt' : Runtime,
            (∃ ext, calls rt' = calls (cuda w) ++ ext ∧ Forall harmless ext) →
            ∃ ext, calls rt' = calls (cuda w) ++ ext ∧
                   (∀ s, StreamDestroy s ∉ ext) ∧
                   (∀ d, DeviceReset d ∈ ext →
                      ∃ caller, (caller, d) ∈ ObjectToDeviceMap (mgr w) ∧
                                c = CallReturnDevice caller d)).
  { intros rt' (ext & Hc & Hh). exists ext. split_and!; [done | |].
    - intros s. by apply harmless_not_destroy.
    - intros d Hd. by apply harmless_not_reset in Hd. }
  assert (Hsame : ∀ rt' : Runtime, rt' = cuda w →
            ∃ ext, calls rt' = calls (cuda w) ++ ext ∧ Forall harmless ext).
  { intros rt' ->. exists []. by rewrite app_nil_r. }
  destruct c; cbn [effect].
  - apply Hquiet, Hsame. unfold GetNumberOfDevices. by destruct (negb _).
  - apply Hquiet, Hsame, GetDevice_cuda.
  - destruct (ReturnDevice_shape caller device w) as (_ & _ & [Hc | [Hin Hc]]).
    + by apply Hquiet, Hsame.
    + rewrite Hc, reset_block_calls. eexists. split; [done |].
      destruct (device =? active (cuda w)); split.
      * intros s [[=] | H]%elem_of_cons. by apply elem_of_nil in H.
      * intros d [[= <-] | H]%elem_of_cons; [by exists caller |].
        by apply elem_of_nil in H.
      * intros s Hs. rewrite !elem_of_cons, elem_of_nil in Hs.
        by destruct Hs as [[=] | [[=] | [[=] | []]]].
      * intros d Hd. rewrite !elem_of_cons, elem_of_nil in Hd.
        destruct Hd as [[=] | [[= <-] | [[=] | []]]]. by exists caller.
  - apply Hquiet, GetStream_shape.
  - apply Hquiet, Hsame, ReturnStream_shape.
  - apply Hquiet, SynchronizeStream_calls.
  - apply Hquiet, ReserveGPU_calls.
  - apply Hquiet, Hsame, QueryDeviceForObject_eq.
  - apply Hquiet, Hsame, QueryDeviceForStream_eq.
  - apply Hquiet, DestroyEmptyStream_shape.
Qed.

Lemma calls_never_destroy_streams_witness :
  ∃ p1 p2 p3,
    GetDevice 100 0 (fresh 2) = Returns false p1 ∧
    GetStream 100 0 1 p1 = Returns (false, 1000) p2 ∧
    perform (CallReturnStream 100 1000 1) p2 = Returns tt p3 ∧
    ∃ ext,
      calls (cuda (world p3)) = calls (cuda (world p2)) ++ ext ∧
      (∀ s, StreamDestroy s ∉ ext) ∧
      (∀ d, DeviceReset d ∈ ext →
         ∃ caller, (caller, d) ∈ ObjectToDeviceMap (mgr (world p2)) ∧
                   CallReturnStream 100 1000 1 = CallReturnDevice caller d).
Proof.
  do 3 eexists. split; [vm_compute; reflexivity |].
  split; [vm_compute; reflexivity |].
  match goal with |- perform _ ?q = _ ∧ _ => pose (p2 := q) end.
  split; [vm_compute; reflexivity |].
  apply (calls_never_destroy_streams (CallReturnStream 100 1000 1) p2).
  vm_compute. reflexivity.
Defined.

(** ** Shutdown *)

(** X12.  The destructor keeps the lock while it calls [SynchronizeStream],
    which takes the lock itself.  So it returns only when the lock is there
    to be taken and [StreamToDeviceMap] is empty; it has then issued no
    runtime call, cleared the three containers and deleted the lock.  With
    the lock to be taken and a stream bound, it waits for the mutex it
    holds; with a null or deleted lock its first statement is undefined. *)
Theorem destructor_returns_only_without_streams (p : Process) :
  let cleared :=
    mkProcess
      (mkWorld (mkManager [] ∅ []) (cuda (world p)) (heap (world p))
               (errors (world p)))
      Deleted in
  (∀ p', destructor p = Returns tt p' ↔
         lock_free p ∧ StreamToDeviceMap (mgr (world p)) = ∅ ∧ p' = cleared) ∧
  (destructor p = Hangs ↔
     regularLock p = Held ∨
     lock_free p ∧ StreamToDeviceMap (mgr (world p)) ≠ ∅) ∧
  (destructor p = Undefined ↔
     regularLock p = NoLock ∨ regularLock p = Deleted).
Proof.
  intros cleared. rewrite destructor_outcome. unfold lock_free.
  destruct (regularLock p) eqn:Hl; cbn [locking].
  1, 3, 4: split_and!; [intros p' | ..]; split; intros; intuition congruence.
  destruct (decide (StreamToDeviceMap (mgr (world p)) = ∅)) as [He | Hne].
  - split_and!.
    + intros p'. split; [by intros [= <-] | by intros (_ & _ & ->)].
    + split; [done | intros [? | [_ ?]]; done].
    + split; [done | intros [? | ?]; done].
  - split_and!.
    + intros p'. split; [done | by intros (_ & ? & _)].
    + split; [intros _; by right | done].
    + split; [done | intros [? | ?]; done].
Qed.

(** ** Device counting and independence of the containers *)

(** X13.  When [cudaGetDeviceCount] fails, [GetNumberOfDevices] reports the
    catastrophic-error message and returns -1, and nothing can be acquired:
    [GetDevice] and [GetStream] fail for every caller, stream and device
    index, their last message is the invalid-device one, the handle is
    handed back unchanged, and neither the containers nor the runtime nor
    the lock change. *)
Theorem no_acquisition_without_device_count
    (caller stream device : Z) (p : Process) :
  count_status (cuda (world p)) ≠ 0 →
  let w := world p in
  GetNumberOfDevices w = (-1, vtkErrorMacro msg_count w) ∧
  ∃ g s,
    GetDevice caller device p = Returns true g ∧
    last (errors (world g)) = Some msg_invalid_device ∧
    mgr (world g) = mgr w ∧ cuda (world g) = cuda w ∧
    regularLock g = regularLock p ∧
    GetStream caller stream device p = Returns (true, stream) s ∧
    last (errors (world s)) = Some msg_invalid_device ∧
    mgr (world s) = mgr w ∧ cuda (world s) = cuda w ∧
    regularLock s = regularLock p.
Proof.
  intros Hst w.
  destruct (no_acquisition_without_device_count_nolock caller stream device w Hst)
    as (Hn & H1 & H2 & H3 & H4 & H5 & H6 & H7 & H8).
  split; [done |].
  assert (Hv : device < 0 ∨ (GetNumberOfDevices w).1 ≤ device)
    by (rewrite Hn; simpl; lia).
  destruct (invalid_device_invalid device w Hv) as (Hi & _).
  do 2 eexists. rewrite GetDevice_outcome, GetStream_outcome. cbv zeta.
  fold w. rewrite H1, Hi, H5. split; [reflexivity |]. done.
Qed.

Lemma no_acquisition_without_device_count_witness :
  let p := vtkCUDADeviceManager (mkRuntime 30 0 0 0 []) 1000 in
  let w := world p in
  GetNumberOfDevices w = (-1, vtkErrorMacro msg_count w) ∧
  ∃ g s,
    GetDevice 100 0 p = Returns true g ∧
    last (errors (world g)) = Some msg_invalid_device ∧
    mgr (world g) = mgr w ∧ cuda (world g) = cuda w ∧
    regularLock g = regularLock p ∧
    GetStream 100 0 0 p = Returns (true, 0) s ∧
    last (errors (world s)) = Some msg_invalid_device ∧
    mgr (world s) = mgr w ∧ cuda (world s) = cuda w ∧
    regularLock s = regularLock p.
Proof.
  apply (no_acquisition_without_device_count 100 0 0). simpl. lia.
Defined.

(** X14.  The device container and the stream containers are maintained
    independently.  No stream operation ([GetStream], [ReturnStream],
    [SynchronizeStream], [ReserveGPU], [QueryDeviceForStream],
    [DestroyEmptyStream]) that returns has added or erased an entry of
    [ObjectToDeviceMap], so an object gets no device entry with a stream;
    and [GetDevice] and [QueryDeviceForObject] change neither
    [StreamToDeviceMap] nor [StreamToObjectMap]. *)
Theorem devices_and_streams_independent (c : Call) (p p' : Process) :
  perform c p = Returns tt p' →
  match c with
  | CallGetStream _ _ _ | CallReturnStream _ _ _ | CallSynchronizeStream _
  | CallReserveGPU _ | CallQueryDeviceForStream _ | CallDestroyEmptyStream _ =>
      ObjectToDeviceMap (mgr (world p')) = ObjectToDeviceMap (mgr (world p))
  | CallGetDevice _ _ =>
      StreamToDeviceMap (mgr (world p')) = StreamToDeviceMap (mgr (world p)) ∧
      StreamToObjectMap (mgr (world p')) = StreamToObjectMap (mgr (world p))
  | CallQueryDeviceForObject _ | CallGetNumberOfDevices =>
      mgr (world p') = mgr (world p)
  | CallReturnDevice _ _ =>
      StreamToObjectMap (mgr (world p')) = StreamToObjectMap (mgr (world p))
  end.
Proof.
  intros (-> & _)%perform_Returns. destruct c; cbn [effect].
  - unfold GetNumberOfDevices. by destruct (negb _).
  - unfold GetDevice_nolock.
    pose proof (invalid_device_mgr device (world p)) as Hm.
    destruct (invalid_device device (world p)) as [[] w1]; simpl in *;
      by rewrite Hm.
  - apply ReturnDevice_shape.
  - apply GetStream_shape.
  - apply ReturnStream_shape.
  - by rewrite SynchronizeStream_mgr.
  - by rewrite ReserveGPU_mgr.
  - apply QueryDeviceForObject_eq.
  - by rewrite (proj1 (QueryDeviceForStream_eq _ _)).
  - apply DestroyEmptyStream_shape.
Qed.

Lemma devices_and_streams_independent_witness :
  ∃ p1 p2,
    GetDevice 100 0 (fresh 2) = Returns false p1 ∧
    perform (CallGetStream 200 0 1) p1 = Returns tt p2 ∧
    ObjectToDeviceMap (mgr (world p2)) = ObjectToDeviceMap (mgr (world p1)).
Proof.
  do 2 eexists. split; [vm_compute; reflexivity |].
  match goal with |- perform _ ?q = _ ∧ _ => pose (p1 := q) end.
  split; [vm_compute; reflexivity |].
  apply (devices_and_streams_independent (CallGetStream 200 0 1) p1).
  vm_compute. reflexivity.
Defined.

(** * The clipping planes of the renderer information handler *)

Section ClippingPlanes.

Import RendererInformationHandler.

Context `{Arithmetic}.

Lemma coefficients_length (h : Handler) (p : Plane) :
  length (coefficients h p) = 4%nat.
Proof.
  unfold coefficients. destruct (normal p) as [[n0 n1] n2].
  destruct (origin p) as [[o0 o1] o2]. by destruct (negb (is_one _)).
Qed.

Lemma rows_length (h : Handler) (ps : list Plane) :
  length (ps ≫= coefficients h) = (4 * length ps)%nat.
Proof.
  induction ps as [| p ps IH]; [done |].
  rewrite bind_cons, length_app, coefficients_length, IH. simpl. lia.
Qed.

Lemma figure_plane_inserts (h : Handler) (i : nat) (p : Plane)
    (planesArray : list float) :
  figure_plane h i p planesArray =
  list_inserts (4 * i) (coefficients h p) planesArray.
Proof.
  unfold figure_plane, coefficients.
  destruct (normal p) as [[n0 n1] n2]. destruct (origin p) as [[o0 o1] o2].
  destruct (negb (is_one _)); cbn [list_inserts];
    replace (4 * i + 1)%nat with (S (4 * i)) by lia;
    replace (4 * i + 2)%nat with (S (S (4 * i))) by lia;
    replace (4 * i + 3)%nat with (S (S (S (4 * i)))) by lia;
    set (k := (4 * i)%nat);
    rewrite (list_insert_insert_ne _ k (S k)) by lia;
    rewrite (list_insert_insert_ne _ k (S (S k))) by lia;
    rewrite (list_insert_insert_ne _ (S k) (S (S k))) by lia;
    rewrite (list_insert_insert_ne _ k (S (S (S k)))) by lia;
    rewrite (list_insert_insert_ne _ (S k) (S (S (S k)))) by lia;
    rewrite (list_insert_insert_ne _ (S (S k)) (S (S (S k)))) by lia;
    done.
Qed.

Lemma figure_loop_inserts (h : Handler) (ps : list Plane) :
  ∀ i planesArray,
    figure_loop h i ps planesArray =
    list_inserts (4 * i) (ps ≫= coefficients h) planesArray.
Proof.
  induction ps as [| p ps IH]; intros i planesArray; [done |].
  simpl figure_loop. rewrite IH, figure_plane_inserts, bind_cons.
  rewrite list_inserts_app_l, coefficients_length.
  by replace (4 + 4 * i)%nat with (4 * S i)%nat by lia.
Qed.

Lemma list_inserts_twice (i : nat) (k l : list float) :
  list_inserts i k (list_inserts i k l) = list_inserts i k l.
Proof.
  apply list_eq. intros j.
  destruct (decide (i ≤ j < i + length k)%nat) as [Hin | Hout].
  - destruct (decide (j < length l)%nat) as [Hlt | Hge].
    + rewrite !list_lookup_inserts; rewrite ?length_inserts; done.
    + rewrite !lookup_ge_None_2; rewrite ?length_inserts; [done | lia | lia].
  - destruct (decide (j < i)%nat).
    + by rewrite !list_lookup_inserts_lt.
    + rewrite !list_lookup_inserts_ge by lia. done.
Qed.

Lemma coefficients_matrices (h h' : Handler) (p : Plane) :
  WorldToVoxelsMatrix h' = WorldToVoxelsMatrix h →
  VoxelsToWorldMatrix h' = VoxelsToWorldMatrix h →
  coefficients h' p = coefficients h p.
Proof. intros HW HV. unfold coefficients. by rewrite HW, HV. Qed.

Lemma rows_matrices (h h' : Handler) (ps : list Plane) :
  WorldToVoxelsMatrix h' = WorldToVoxelsMatrix h →
  VoxelsToWorldMatrix h' = VoxelsToWorldMatrix h →
  ps ≫= coefficients h' = ps ≫= coefficients h.
Proof.
  intros HW HV. induction ps as [| p ps IH]; [done |].
  by rewrite !bind_cons, IH, (coefficients_matrices h h').
Qed.

Lemma FigurePlanes_six (h : Handler) (pc : PlaneCollection)
    (planesArray : list float) :
  length (items pc) = 6%nat →
  FigurePlanes h (Some pc) planesArray =
  (6, list_inserts 0 (items pc ≫= coefficients h) planesArray).
Proof.
  intros Hlen. unfold FigurePlanes. rewrite Hlen. simpl.
  by rewrite figure_loop_inserts.
Qed.

Lemma FigurePlanes_not_six (h : Handler) (pc : PlaneCollection)
    (planesArray : list float) :
  length (items pc) ≠ 6%nat →
  FigurePlanes h (Some pc) planesArray = (0, planesArray).
Proof.
  intros Hlen. unfold FigurePlanes.
  destruct (Z.eqb_spec (Z.of_nat (length (items pc))) 6); [lia | done].
Qed.

(** X15.  [FigurePlanes] accepts exactly six planes.  With a null collection
    or a collection of any other size it reports zero planes and leaves the
    plane array untouched.  With six planes it reports six, keeps the length
    of the array and everything from entry 24 on, and, when the array has at
    least 24 entries, overwrites the first 24 with the four coefficients of
    each plane in order, whatever the array held before. *)
Theorem FigurePlanes_spec (h : Handler) (planes : option PlaneCollection)
    (planesArray : list float) :
  let r := FigurePlanes h planes planesArray in
  (∀ pc, planes = Some pc → length (items pc) = 6%nat →
     r.1 = 6 ∧ length r.2 = length planesArray ∧
     drop 24 r.2 = drop 24 planesArray ∧
     ((24 ≤ length planesArray)%nat →
        take 24 r.2 = items pc ≫= coefficients h)) ∧
  ((∀ pc, planes = Some pc → length (items pc) ≠ 6%nat) →
     r = (0, planesArray)).
Proof.
  intros r. subst r. split.
  - intros pc -> Hlen. rewrite FigurePlanes_six by done. cbn [fst snd].
    pose proof (rows_length h (items pc)) as Hrows. rewrite Hlen in Hrows.
    split_and!; [done | apply length_inserts | |].
    + apply list_eq. intros j. rewrite !lookup_drop.
      apply list_lookup_inserts_ge. lia.
    + intros Hbig.
      rewrite <- (take_drop 24 planesArray) at 1.
      rewrite list_inserts_0_r by (rewrite length_take; lia).
      rewrite take_app_length'; [done | lia].
  - intros Hn. destruct planes as [pc |]; [| done].
    apply FigurePlanes_not_six. by apply Hn.
Qed.

(** X16.  [SetClippingPlanes] skips a null collection and a collection whose
    modification time is older than [clipModified]: the handler is then
    unchanged.  Both matrix setters put [clipModified] back to zero, so the
    first [SetClippingPlanes] after a matrix change is never skipped for a
    collection: it takes over the collection's modification time and
    refigures the planes with the new matrices. *)
Theorem SetClippingPlanes_after_matrix_change
    (matrix : nat → nat → double) (pc : PlaneCollection) (h : Handler) :
  SetClippingPlanes None h = h ∧
  ((MTime pc < clipModified h)%N → SetClippingPlanes (Some pc) h = h) ∧
  ∀ h1,
    h1 = SetWorldToVoxelsMatrix matrix h ∨ h1 = SetVoxelsToWorldMatrix matrix h →
    let h2 := SetClippingPlanes (Some pc) h1 in
    clipModified h2 = MTime pc ∧
    (NumberOfClippingPlanes h2, ClippingPlanes h2) =
      FigurePlanes h1 (Some pc) (ClippingPlanes h) ∧
    WorldToVoxelsMatrix h2 = WorldToVoxelsMatrix h1 ∧
    VoxelsToWorldMatrix h2 = VoxelsToWorldMatrix h1.
Proof.
  split_and!; [done | |].
  - intros Hlt. unfold SetClippingPlanes.
    by destruct (N.ltb_spec (MTime pc) (clipModified h)); [| lia].
  - intros h1 Hh1 h2. subst h2.
    assert (Hc : clipModified h1 = 0%N) by (by destruct Hh1 as [-> | ->]).
    assert (Hp : ClippingPlanes h1 = ClippingPlanes h)
      by (by destruct Hh1 as [-> | ->]).
    unfold SetClippingPlanes. rewrite Hc.
    destruct (N.ltb_spec (MTime pc) 0); [lia |].
    cbn [ClippingPlanes NumberOfClippingPlanes clipModified
         WorldToVoxelsMatrix VoxelsToWorldMatrix].
    rewrite Hp.
    destruct (decide (length (items pc) = 6%nat)) as [Hlen | Hlen].
    + rewrite !FigurePlanes_six by done. cbn [fst snd].
      split_and!; done.
    + rewrite !FigurePlanes_not_six by done. done.
Qed.

(** X17.  Setting the same clipping planes twice is the same as setting
    them once: the second call either is skipped like the first or refigures
    the same entries from the same planes and matrices. *)
Theorem SetClippingPlanes_twice (pc : PlaneCollection) (h : Handler) :
  SetClippingPlanes (Some pc) (SetClippingPlanes (Some pc) h) =
  SetClippingPlanes (Some pc) h.
Proof.
  unfold SetClippingPlanes.
  destruct (MTime pc <? clipModified h)%N eqn:Hlt; [by rewrite Hlt |].
  destruct (decide (length (items pc) = 6%nat)) as [Hlen | Hlen].
  - rewrite FigurePlanes_six by done.
    cbn [clipModified ClippingPlanes NumberOfClippingPlanes
         WorldToVoxelsMatrix VoxelsToWorldMatrix].
    rewrite N.ltb_irrefl, FigurePlanes_six by done.
    f_equal.
    rewrite (rows_matrices
               (mkHandler (NumberOfClippingPlanes h) (ClippingPlanes h)
                  (MTime pc) (WorldToVoxelsMatrix h) (VoxelsToWorldMatrix h)))
      by done.
    apply list_inserts_twice.
  - rewrite FigurePlanes_not_six by done.
    cbn [clipModified ClippingPlanes NumberOfClippingPlanes
         WorldToVoxelsMatrix VoxelsToWorldMatrix].
    by rewrite N.ltb_irrefl, FigurePlanes_not_six.
Qed.

End ClippingPlanes.

Lemma FigurePlanes_spec_witness :
  let A := RendererInformationHandler.integer_arithmetic in
  let h := RendererInformationHandler.mkHandler (H := A)
             0 (replicate 30 7) 0%N (λ k, Z.of_nat k) (λ k, 1) in
  let p := RendererInformationHandler.mkPlane (H := A) (1, 0, 0) (0, 0, 2) in
  let pc := RendererInformationHandler.mkPlaneCollection 5%N (replicate 6 p) in
  ((RendererInformationHandler.FigurePlanes h (Some pc) (replicate 30 7)).1 = 6 ∧
   drop 24 (RendererInformationHandler.FigurePlanes h (Some pc) (replicate 30 7)).2
     = replicate 6 7) ∧
  RendererInformationHandler.FigurePlanes h
    (Some (RendererInformationHandler.mkPlaneCollection 5%N [p])) (replicate 30 7) =
    (0, replicate 30 7).
Proof.
  intros A h p pc. split.
  - destruct (proj1 (FigurePlanes_spec h (Some pc) (replicate 30 7)) pc
                eq_refl eq_refl) as (H1 & _ & H2 & _).
    split; [exact H1 | exact H2].
  - apply (proj2 (FigurePlanes_spec h
                    (Some (RendererInformationHandler.mkPlaneCollection 5%N [p]))
                    (replicate 30 7))).
    intros pc' [= <-]. simpl. lia.
Defined.

Lemma SetClippingPlanes_after_matrix_change_witness :
  let A := RendererInformationHandler.integer_arithmetic in
  let h := RendererInformationHandler.mkHandler (H := A)
             6 (replicate 24 7) 9%N (λ k, 1) (λ k, 1) in
  let pc := RendererInformationHandler.mkPlaneCollection (H := A) 5%N [] in
  RendererInformationHandler.SetClippingPlanes (Some pc) h = h ∧
  RendererInformationHandler.clipModified
    (RendererInformationHandler.SetClippingPlanes (Some pc)
       (RendererInformationHandler.SetWorldToVoxelsMatrix (H := A) (λ i j, 1) h))
    = 5%N.
Proof.
  intros A h pc.
  destruct (SetClippingPlanes_after_matrix_change (H := A) (λ i j, 1) pc h)
    as (_ & Hskip & Hre).
  split.
  - apply Hskip. simpl. lia.
  - apply (Hre _ (or_introl eq_refl)).
Defined.
